(** * xinput [map-to-output]: the coordinate transformation matrix

    A shallow embedding of [src/transform.c] and the properties of its
    specification.  The C functions become Rocq functions of the same
    name.  Everything the program asks the X server is answered by a
    [Display] record; everything it does to the outside world (text on
    the two output streams, the property write, the releases) is
    collected, in program order, in a trace of events.  Undefined
    behaviour of the C program is an explicit outcome. *)

From Stdlib Require Import ZArith QArith Qabs Qpower List String Ascii Bool Lia.
From Stdlib Require Import SpecFloat DecimalString.
From stdpp Require Import base option list.
Import ListNotations.
Local Open Scope Z_scope.

(** ** C scalars *)

Definition Atom := Z.
Definition XID := Z.
Definition pointer := Z.
Definition NULL : pointer := 0.

Definition EXIT_SUCCESS : Z := 0.
Definition EXIT_FAILURE : Z := 1.
Definition Success : Z := 0.
Definition PropModeReplace : Z := 0.
Definition RR_Connected : Z := 0.
Definition INT_MAX : Z := 2147483647.
Definition INT_MIN : Z := -2147483648.

(** The values of an [int]. *)
Definition int_range (z : Z) : Prop := INT_MIN <= z <= INT_MAX.

(** Arithmetic on [int] wraps around in two's complement, which is what
    the usual compilers produce for the one expression of the program
    whose operands are not small constants ([maj * 1000 + min]). *)
Definition int_wrap (z : Z) : Z := (z + 2 ^ 31) mod 2 ^ 32 - 2 ^ 31.
Definition int_mul (a b : Z) : Z := int_wrap (a * b).
Definition int_add (a b : Z) : Z := int_wrap (a + b).

(** An [unsigned int] passed where an [int] is expected is converted
    modulo [2^32]: values up to [INT_MAX] are kept, larger ones become
    negative. *)
Definition int_of_uint (u : Z) : Z := int_wrap u.

(** ** C strings

    A [string] stands for a [char] array; the array ends at the first
    NUL it holds or, when it holds none, right after its last
    character. *)

Definition NUL : ascii := "000"%char.
Definition LF : string := String "010"%char EmptyString.

(** [unsigned char] and plain [char] (signed, as on x86) values. *)
Definition uchar (c : ascii) : Z := Z.of_N (N_of_ascii c).
Definition char_to_int (c : ascii) : Z :=
  if uchar c <? 128 then uchar c else uchar c - 256.

Definition first_char (s : string) : ascii :=
  match s with
  | EmptyString => NUL
  | String c _ => c
  end.

(** [s[i]]; one past the last character is the terminator. *)
Definition char_at (s : string) (i : nat) : ascii :=
  match String.get i s with
  | Some c => c
  | None => NUL
  end.

Fixpoint strlen (s : string) : nat :=
  match s with
  | EmptyString => 0%nat
  | String c r => if Ascii.eqb c NUL then 0%nat else S (strlen r)
  end.

Fixpoint strcmp (s1 s2 : string) : Z :=
  match s1, s2 with
  | String c1 r1, String c2 r2 =>
      if Ascii.eqb c1 c2
      then if Ascii.eqb c1 NUL then 0 else strcmp r1 r2
      else uchar c1 - uchar c2
  | _, _ => uchar (first_char s1) - uchar (first_char s2)
  end.

Fixpoint strncmp (s1 s2 : string) (n : nat) : Z :=
  match n with
  | O => 0
  | S n' =>
      match s1, s2 with
      | String c1 r1, String c2 r2 =>
          if Ascii.eqb c1 c2
          then if Ascii.eqb c1 NUL then 0 else strncmp r1 r2 n'
          else uchar c1 - uchar c2
      | _, _ => uchar (first_char s1) - uchar (first_char s2)
      end
  end.

(** The strings that hold no NUL: those a caller can pass as C strings
    with the same contents. *)
Fixpoint nul_free (s : string) : bool :=
  match s with
  | EmptyString => true
  | String c r => negb (Ascii.eqb c NUL) && nul_free r
  end.

(** [printf("%d", n)]. *)
Definition decimal (n : Z) : string := NilZero.string_of_int (Z.to_int n).

(** ** Floating point

    [float] is IEEE 754 binary32 and [double] binary64, both carried by
    [spec_float] and computed with the operations of the standard
    library's specification of IEEE arithmetic (round to nearest, ties
    to even). *)

Module FP.

Definition double_of_int (z : Z) : spec_float := binary_normalize 53 1024 z 0 false.
Definition double_mul : spec_float -> spec_float -> spec_float := SFmul 53 1024.
Definition double_div : spec_float -> spec_float -> spec_float := SFdiv 53 1024.

(** The constant [1.0]. *)
Definition double_1_0 : spec_float := S754_finite false 4503599627370496 (-52).

Definition float_of_int (z : Z) : spec_float := binary_normalize 24 128 z 0 false.

(** Conversion of a [double] to [float]: the value is rounded to 24
    bits; zeros, infinities and NaN stay what they are. *)
Definition float_of_double (d : spec_float) : spec_float :=
  match d with
  | S754_finite s m e => binary_round 24 128 s m e
  | _ => d
  end.

(** A [float] whose bytes are all zero. *)
Definition float_zero : spec_float := S754_zero false.
Definition float_one : spec_float := S754_finite false 8388608 (-23).
Definition float_half : spec_float := S754_finite false 8388608 (-24).

(** [(float)(1.0 * a / b)] for two [int]s: the quotient as the
    program computes it. *)
Definition ratio (a b : Z) : spec_float :=
  float_of_double (double_div (double_mul double_1_0 (double_of_int a)) (double_of_int b)).

(** The quotient of two [int]s as section 4.2 writes it, [a / b]:
    divided in double precision and stored in a [float]. *)
Definition quotient (a b : Z) : spec_float :=
  float_of_double (double_div (double_of_int a) (double_of_int b)).

(** Neither an infinity nor NaN. *)
Definition finite (f : spec_float) : bool :=
  match f with
  | S754_zero _ | S754_finite _ _ _ => true
  | _ => false
  end.

(** The rational number a float stands for: [m * 2^e] with its sign
    (and 0 for what is not a number). *)
Definition value (f : spec_float) : Q :=
  match f with
  | S754_finite s m e => (inject_Z (cond_Zopp s (Z.pos m)) * (2 # 1) ^ e)%Q
  | _ => 0%Q
  end.

(** [f] is the rational [a / b] to within one part in [2^21]. *)
Definition close_to (f : spec_float) (a b : Z) : Prop :=
  (Qabs (value f - (a # Z.to_pos b)) <= (1 # 2097152) * Qabs (a # Z.to_pos b))%Q.

End FP.

(** ** Matrix *)

(** [struct Matrix { float m[9]; }], row-major. *)
Definition Matrix := list spec_float.

(** An index into [float m[9]]; a store outside the array is undefined
    behaviour, [None]. *)
Definition matrix_set (m : Matrix) (row col : Z) (val : spec_float) : option Matrix :=
  let i := row * 3 + col in
  if (0 <=? i) && (i <? 9) then Some (<[Z.to_nat i := val]> m) else None.

(** [memset(m, 0, sizeof(m->m))]: all nine floats become [+0.0]. *)
Definition memset_zero (m : Matrix) : Matrix := replicate 9 FP.float_zero.

Definition matrix_set_unity (m : Matrix) : option Matrix :=
  let m := memset_zero m in
  m ← matrix_set m 0 0 (FP.float_of_int 1);
  m ← matrix_set m 1 1 (FP.float_of_int 1);
  matrix_set m 2 2 (FP.float_of_int 1).

Definition identity_matrix : Matrix :=
  [ FP.float_one;  FP.float_zero; FP.float_zero;
    FP.float_zero; FP.float_one;  FP.float_zero;
    FP.float_zero; FP.float_zero; FP.float_one ].

(** Entry [(row, col)] of a matrix. *)
Definition entry (m : Matrix) (row col : nat) : option spec_float :=
  m !! (row * 3 + col)%nat.

(** ** The display connection

    What the X server and the client libraries answer.  One run of the
    program asks each question at most once, so the answers are fixed
    data of the run.  The three RandR calls return a pointer, which is
    null ([None]) when the call fails. *)

Record XIPropertyReply := {
  rc : Z;                 (* the Status XIGetProperty returns *)
  type_return : Atom;
  format_return : Z;
  nitems : Z;
  bytes_after : Z;
  data : pointer          (* the buffer handed to the caller *)
}.

Record XRRScreenResources := {
  handle : pointer;     (* the address of the resources *)
  outputs : list XID      (* outputs[0 .. noutput-1] *)
}.

Record XRROutputInfo := {
  crtc : XID;
  connection : Z;
  name : string
}.

Record XRRCrtcInfo := {
  x : Z;                  (* int *)
  y : Z;                  (* int *)
  width : Z;              (* unsigned int *)
  height : Z              (* unsigned int *)
}.

(** [width] and [height] of the C struct are [xi_width] and [xi_height]
    here, apart from the fields of [XRRCrtcInfo]. *)
Record XineramaScreenInfo := {
  x_org : Z;
  y_org : Z;
  xi_width : Z;
  xi_height : Z
}.

Record XIDeviceInfo := {
  deviceid : Z
}.

Record Display := {
  DisplayWidth : Z;        (* of the default screen *)
  DisplayHeight : Z;
  XInternAtom : string -> bool -> Atom;   (* name, only_if_exists *)
  XIGetProperty : Z -> Atom -> Z -> Z -> bool -> Atom -> XIPropertyReply;
  XQueryExtension : string -> bool;
  XRRQueryVersion : option (Z * Z);    (* [None]: the query returns 0 *)
  XRRGetScreenResources : option XRRScreenResources;
  XRRGetOutputInfo : XID -> option XRROutputInfo;
  XRRGetCrtcInfo : XID -> option XRRCrtcInfo;
  XineramaQueryExtension : bool;
  XineramaQueryScreens : pointer * list XineramaScreenInfo;
  xi2_find_device_info : string -> option XIDeviceInfo
}.

(** ** Effects *)

Inductive event :=
  | Stderr (text : string)                      (* fprintf(stderr, ...) *)
  | Stdout (text : string)                      (* printf(...) *)
  | ChangeProperty (device : Z) (property type : Atom) (format mode : Z)
                   (values : list spec_float) (count : Z)
  | Free (p : pointer)                          (* XFree *)
  | FreeScreenResources (p : pointer).          (* XRRFreeScreenResources *)

(** A run: the events so far and the value returned, or [None] when
    the run went into undefined behaviour. *)
Definition Run (A : Type) : Type := list event * option A.

#[global] Instance Run_ret : MRet Run := fun A a => ([], Some a).

#[global] Instance Run_bind : MBind Run := fun A B f c =>
  match c with
  | (t, Some a) => let '(t', r) := f a in (t ++ t', r)
  | (t, None) => (t, None)
  end.

Definition emit (e : event) : Run unit := ([e], Some tt).

(** A pure step of the program; [None] is undefined behaviour. *)
Definition lift {A : Type} (o : option A) : Run A := ([], o).

(** [l[i]] for an [int] index: outside the array the read is undefined. *)
Definition index {A : Type} (l : list A) (i : Z) : option A :=
  if i <? 0 then None else l !! Z.to_nat i.

Definition is_write (e : event) : bool :=
  match e with
  | ChangeProperty _ _ _ _ _ _ _ => true
  | _ => false
  end.

Definition is_stderr (e : event) : bool :=
  match e with
  | Stderr _ => true
  | _ => false
  end.

Definition is_free_of (p : pointer) (e : event) : bool :=
  match e with
  | Free q => q =? p
  | _ => false
  end.

(** The property writes, the lines on standard error and the number of
    releases of a buffer in a trace. *)
Definition writes (t : list event) : list event := List.filter is_write t.
Definition diagnostics (t : list event) : list event := List.filter is_stderr t.
Definition times_freed (p : pointer) (t : list event) : nat :=
  length (List.filter (is_free_of p) t).

(** ** The program *)

Definition FLOAT : string := "FLOAT".
Definition MATRIX : string := "Coordinate Transformation Matrix".

Definition msg_no_float : string :=
  "Float atom not found. This server is too old." ++ LF.
Definition msg_no_matrix : string :=
  "Coordinate transformation matrix not found. This server is too old" ++ LF.
Definition msg_property : string :=
  "Failed to retrieve current property values" ++ LF.
Definition msg_no_output (output_name : string) : string :=
  "Unable to find output '" ++ output_name ++ "'. Output may not be connected." ++ LF.
Definition msg_no_xinerama : string :=
  "Unable to set screen mapping. Xinerama extension not found" ++ LF.
Definition msg_head : string :=
  "Please specify the output name as HEAD-X,where X is the screen number" ++ LF.
Definition msg_no_screens : string :=
  "Xinerama failed to query screens." ++ LF.
Definition msg_range (nscreens : Z) (output_name : string) : string :=
  "Found " ++ decimal nscreens ++ " screens, but you requested " ++ output_name ++ "." ++ LF.
Definition msg_usage (name desc : string) : string :=
  "Usage: xinput " ++ name ++ " " ++ desc ++ LF.
Definition msg_no_device (arg : string) : string :=
  "unable to find device " ++ arg ++ LF.

(** The test of [apply_matrix] on the reply to the property read. *)
Definition property_bad (prop_float : Atom) (r : XIPropertyReply) : bool :=
  negb (rc r =? Success) || negb (prop_float =? type_return r)
  || negb (format_return r =? 32) || negb (nitems r =? 9)
  || negb (bytes_after r =? 0).

(** The nine floats of [m] are copied over the buffer and the buffer is
    sent back, so the values of the request are those of [m]. *)
Definition apply_matrix (dpy : Display) (deviceid : Z) (m : Matrix) : Run Z :=
  let prop_float := XInternAtom dpy FLOAT false in
  let prop_matrix := XInternAtom dpy MATRIX false in
  if prop_float =? 0 then
    emit (Stderr msg_no_float);; mret EXIT_FAILURE
  else if prop_matrix =? 0 then
    emit (Stderr msg_no_matrix);; mret EXIT_FAILURE
  else
    let r := XIGetProperty dpy deviceid prop_matrix 0 9 false prop_float in
    if property_bad prop_float r then
      emit (Stderr msg_property);; mret EXIT_FAILURE
    else
      emit (ChangeProperty deviceid prop_matrix prop_float (format_return r)
                           PropModeReplace m (nitems r));;
      emit (Free (data r));;
      mret EXIT_SUCCESS.

Definition set_transformation_matrix (dpy : Display) (m : Matrix)
    (offset_x offset_y screen_width screen_height : Z) : option Matrix :=
  let width := DisplayWidth dpy in
  let height := DisplayHeight dpy in
  let x := FP.ratio offset_x width in
  let y := FP.ratio offset_y height in
  let w := FP.ratio screen_width width in
  let h := FP.ratio screen_height height in
  m ← matrix_set_unity m;
  m ← matrix_set m 0 2 x;
  m ← matrix_set m 1 2 y;
  m ← matrix_set m 0 0 w;
  matrix_set m 1 1 h.

(** The search loop of [map_crtc_xrandr] over [res->outputs], from the
    output at hand to the end or to the first hit.  [crtc_info] is the
    variable of that name: [None] while it holds nothing that can be
    dereferenced (before the first store, and after the store of a
    null pointer).  The loop reads [output_info->crtc] without a test,
    so a null [output_info] is undefined behaviour: the scan is [None]. *)
Fixpoint scan_outputs (dpy : Display) (output_name : string) (outs : list XID)
    (crtc_info : option XRRCrtcInfo) : option (bool * option XRRCrtcInfo) :=
  match outs with
  | [] => Some (false, crtc_info)
  | o :: rest =>
      match XRRGetOutputInfo dpy o with
      | None => None
      | Some output_info =>
          if (crtc output_info =? 0) || negb (connection output_info =? RR_Connected)
          then scan_outputs dpy output_name rest crtc_info
          else
            let crtc_info := XRRGetCrtcInfo dpy (crtc output_info) in
            if strcmp (name output_info) output_name =? 0
            then Some (true, crtc_info)
            else scan_outputs dpy output_name rest crtc_info
      end
  end.

(** [m0] is whatever the automatic variable [Matrix m] holds before it
    is first written.  [res->noutput] is read without a test, so null
    resources are undefined behaviour; so is a null [crtc_info] at
    [crtc_info->x].  The [unsigned int] width and height of the CRTC
    are converted to the [int] parameters of the builder. *)
Definition map_crtc_xrandr (dpy : Display) (deviceid : Z) (output_name : string)
    (m0 : Matrix) : Run Z :=
  res ← lift (XRRGetScreenResources dpy);
  scan ← lift (scan_outputs dpy output_name (outputs res) None);
  let '(found, crtc_info) := scan in
  rc ← (if found : bool then
          m ← lift (matrix_set_unity m0);
          c ← lift crtc_info;
          m ← lift (set_transformation_matrix dpy m (x c) (y c)
                      (int_of_uint (width c)) (int_of_uint (height c)));
          apply_matrix dpy deviceid m
        else
          emit (Stdout (msg_no_output output_name));; mret EXIT_FAILURE);
  emit (FreeScreenResources (handle res));;
  mret rc.

(** The label [out:] of [map_crtc_xinerama]. *)
Definition out (screens : pointer) (rc : Z) : Run Z :=
  emit (Free screens);; mret rc.

Definition map_crtc_xinerama (dpy : Display) (deviceid : Z) (output_name : string)
    (m0 : Matrix) : Run Z :=
  let prefix := "HEAD-"%string in
  if negb (XineramaQueryExtension dpy) then
    emit (Stderr msg_no_xinerama);; out NULL EXIT_FAILURE
  else if (strlen output_name <? strlen prefix + 1)%nat
          || negb (strncmp output_name prefix (strlen prefix) =? 0) then
    emit (Stderr msg_head);; out NULL EXIT_FAILURE
  else
    let head := char_to_int (char_at output_name (strlen prefix)) - char_to_int "0" in
    let '(screens, infos) := XineramaQueryScreens dpy in
    let nscreens := Z.of_nat (length infos) in
    if nscreens =? 0 then
      emit (Stderr msg_no_screens);; out screens EXIT_FAILURE
    else if nscreens <=? head then
      emit (Stderr (msg_range nscreens output_name));; out screens EXIT_FAILURE
    else
      m ← lift (matrix_set_unity m0);
      s ← lift (index infos head);
      m ← lift (set_transformation_matrix dpy m (x_org s) (y_org s) (xi_width s) (xi_height s));
      rc ← apply_matrix dpy deviceid m;
      out screens rc.

Inductive backend := Xinerama | RandR.

(** The test of [map_to_crtc] between its two resolvers. *)
Definition select_backend (dpy : Display) : backend :=
  if XQueryExtension dpy "NV-CONTROL"
     || negb (XQueryExtension dpy "RANDR")
     || match XRRQueryVersion dpy with
        | None => true
        | Some (maj, min) => int_add (int_mul maj 1000) min <? 1002
        end
  then Xinerama else RandR.

Definition resolver (b : backend) : Display -> Z -> string -> Matrix -> Run Z :=
  match b with
  | Xinerama => map_crtc_xinerama
  | RandR => map_crtc_xrandr
  end.

Definition map_to_crtc (dpy : Display) (argc : Z) (argv : list string)
    (name desc : string) (m0 : Matrix) : Run Z :=
  if argc <? 2 then
    emit (Stderr (msg_usage name desc));; mret EXIT_FAILURE
  else
    arg0 ← lift (index argv 0);
    match xi2_find_device_info dpy arg0 with
    | None => emit (Stderr (msg_no_device arg0));; mret EXIT_FAILURE
    | Some info =>
        crtc_name ← lift (index argv 1);
        resolver (select_backend dpy) dpy (deviceid info) crtc_name m0
    end.

(** ** The words of the specification *)

(** The matrix of section 4.2 for a display of [W] by [H] pixels and
    the rectangle at [(offset_x, offset_y)] of [rect_w] by [rect_h]
    pixels; each quotient is the single-precision one of the program. *)
Definition rect_matrix (W H offset_x offset_y rect_w rect_h : Z) : Matrix :=
  [ FP.ratio rect_w W; FP.float_zero;     FP.ratio offset_x W;
    FP.float_zero;     FP.ratio rect_h H; FP.ratio offset_y H;
    FP.float_zero;     FP.float_zero;     FP.float_one ].

(** The right half of a display: 0.5 across, 1.0 down, moved right by 0.5. *)
Definition right_half_matrix : Matrix :=
  [ FP.float_half; FP.float_zero; FP.float_half;
    FP.float_zero; FP.float_one;  FP.float_zero;
    FP.float_zero; FP.float_zero; FP.float_one ].

(** A run fails with a diagnostic: it returns [EXIT_FAILURE], the
    message is all it wrote to standard error, and it sent no property
    write. *)
Definition fails_with (r : Run Z) (message : string) : Prop :=
  r.2 = Some EXIT_FAILURE /\ diagnostics r.1 = [Stderr message] /\ writes r.1 = [].

(** The five conditions on the reply to the property read. *)
Definition well_formed_property (prop_float : Atom) (r : XIPropertyReply) : Prop :=
  rc r = Success /\ type_return r = prop_float /\ format_return r = 32
  /\ nitems r = 9 /\ bytes_after r = 0.

(** Version [maj.min] is below version [M.N]. *)
Definition version_below (maj min M N : Z) : Prop :=
  maj < M \/ (maj = M /\ min < N).

(** What section 4.6 says selects the Xinerama resolver. *)
Definition xinerama_policy (dpy : Display) : Prop :=
  XQueryExtension dpy "NV-CONTROL" = true
  \/ XQueryExtension dpy "RANDR" = false
  \/ exists maj min, XRRQueryVersion dpy = Some (maj, min) /\ version_below maj min 1 2.

(** The same with the failed version query written out. *)
Definition xinerama_policy_amended (dpy : Display) : Prop :=
  XQueryExtension dpy "NV-CONTROL" = true
  \/ XQueryExtension dpy "RANDR" = false
  \/ XRRQueryVersion dpy = None
  \/ exists maj min, XRRQueryVersion dpy = Some (maj, min) /\ version_below maj min 1 2.

(** A reported version whose minor number has at most three digits and
    whose encoding [maj * 1000 + min] fits an [int]. *)
Definition plain_version (dpy : Display) : Prop :=
  forall maj min, XRRQueryVersion dpy = Some (maj, min) ->
    0 <= min < 1000 /\ -2147483 <= maj <= 2147482.

(** An output the RandR scan does not skip: it has a CRTC and is
    connected. *)
Definition candidate (info : XRROutputInfo) : Prop :=
  crtc info <> 0 /\ connection info = RR_Connected.

(** The output the scan is looking for. *)
Definition matches (output_name : string) (info : XRROutputInfo) : Prop :=
  candidate info /\ name info = output_name.

(** The same with the names compared as the program compares them. *)
Definition compares_equal (output_name : string) (info : XRROutputInfo) : Prop :=
  candidate info /\ strcmp (name info) output_name = 0.

(** The value [head] of [map_crtc_xinerama] for a name that passed the
    check of its form. *)
Definition head_of (output_name : string) : Z :=
  char_to_int (char_at output_name 5) - char_to_int "0".

(** ** Sample displays

    A display of 1920 by 1080 pixels whose server knows the two atoms
    (7 and 8) and the device ["tablet"] (id 5).  RandR reports three
    outputs: a VGA connector without CRTC, a connected DVI output on
    the left half and a connected HDMI output on the right half.  The
    extensions the server has, the RandR version it reports, its reply
    to the property read and its Xinerama screens are left open. *)

Definition float_atom : Atom := 7.
Definition matrix_atom : Atom := 8.

Definition reply_of (count : Z) : XIPropertyReply :=
  {| rc := Success; type_return := float_atom; format_return := 32;
     nitems := count; bytes_after := 0; data := 4096 |}.

Definition left_screen : XineramaScreenInfo :=
  {| x_org := 0; y_org := 0; xi_width := 960; xi_height := 1080 |}.
Definition right_screen : XineramaScreenInfo :=
  {| x_org := 960; y_org := 0; xi_width := 960; xi_height := 1080 |}.

Definition sample_display (extensions : list string) (version : option (Z * Z))
    (reply : XIPropertyReply) (screens : list XineramaScreenInfo) : Display :=
  {| DisplayWidth := 1920;
     DisplayHeight := 1080;
     XInternAtom := fun s _ =>
       if String.eqb s FLOAT then float_atom
       else if String.eqb s MATRIX then matrix_atom else 9;
     XIGetProperty := fun _ _ _ _ _ _ => reply;
     XQueryExtension := fun s => existsb (String.eqb s) extensions;
     XRRQueryVersion := version;
     XRRGetScreenResources := Some {| handle := 8192; outputs := [61; 62; 63] |};
     XRRGetOutputInfo := fun o =>
       if o =? 61 then Some {| crtc := 0; connection := 1; name := "VGA-1" |}
       else if o =? 62
       then Some {| crtc := 72; connection := RR_Connected; name := "DVI-1" |}
       else Some {| crtc := 73; connection := RR_Connected; name := "HDMI-1" |};
     XRRGetCrtcInfo := fun c =>
       if c =? 72 then Some {| x := 0; y := 0; width := 960; height := 1080 |}
       else Some {| x := 960; y := 0; width := 960; height := 1080 |};
     XineramaQueryExtension := true;
     XineramaQueryScreens := (12288, screens);
     xi2_find_device_info := fun s =>
       if String.eqb s "tablet" then Some {| deviceid := 5 |} else None |}.

(** A server with RandR 1.3 and a well-formed matrix property. *)
Definition randr_display : Display :=
  sample_display ["RANDR"%string] (Some (1, 3)) (reply_of 9) [left_screen; right_screen].

(** ** Outcomes of a run *)

(** The reply to the property read of [apply_matrix] on a device. *)
Definition property_reply (dpy : Display) (deviceid : Z) : XIPropertyReply :=
  XIGetProperty dpy deviceid (XInternAtom dpy MATRIX false) 0 9 false
    (XInternAtom dpy FLOAT false).

(** The request that replaces the matrix property of a device by the
    nine floats of [m]. *)
Definition matrix_write (dpy : Display) (deviceid : Z) (m : Matrix) : event :=
  ChangeProperty deviceid (XInternAtom dpy MATRIX false) (XInternAtom dpy FLOAT false)
    32 PropModeReplace m 9.

(** What [apply_matrix] needs of the server to send the write: both
    atoms, and a matrix property of nine floats on the device. *)
Definition property_ready (dpy : Display) (deviceid : Z) : Prop :=
  XInternAtom dpy FLOAT false <> 0 /\ XInternAtom dpy MATRIX false <> 0
  /\ well_formed_property (XInternAtom dpy FLOAT false) (property_reply dpy deviceid).

(** The lines a run printed, on either stream. *)
Definition is_output (e : event) : bool :=
  match e with
  | Stderr _ | Stdout _ => true
  | _ => false
  end.

Definition printed (t : list event) : list event := List.filter is_output t.

(** The rectangle a resolver reads off the server's answers for an
    output name, as the four [int]s it hands to the builder.  RandR:
    the server returned the resources, described every output before
    the first connected output with a CRTC whose name compares equal,
    and returned the geometry of that CRTC; the rectangle is that
    geometry, width and height converted to [int].  Xinerama: the
    screen at the index of the name. *)
Definition resolved_rectangle (dpy : Display) (b : backend) (output_name : string)
    (r : Z * Z * Z * Z) : Prop :=
  match b with
  | RandR =>
      exists res skipped o rest info c,
        XRRGetScreenResources dpy = Some res
        /\ outputs res = skipped ++ o :: rest
        /\ (forall o', In o' skipped ->
              exists info', XRRGetOutputInfo dpy o' = Some info'
                            /\ ~ compares_equal output_name info')
        /\ XRRGetOutputInfo dpy o = Some info
        /\ compares_equal output_name info
        /\ XRRGetCrtcInfo dpy (crtc info) = Some c
        /\ r = (x c, y c, int_of_uint (width c), int_of_uint (height c))
  | Xinerama =>
      exists s, index (XineramaQueryScreens dpy).2 (head_of output_name) = Some s
        /\ r = (x_org s, y_org s, xi_width s, xi_height s)
  end.


(** A RandR call whose result the resolver dereferences returned a
    null pointer: the resources, the description of an output, or the
    geometry of the CRTC of an output that is the one looked for. *)
Definition randr_null (dpy : Display) (output_name : string) : Prop :=
  XRRGetScreenResources dpy = None
  \/ exists res o,
       XRRGetScreenResources dpy = Some res /\ In o (outputs res)
       /\ (XRRGetOutputInfo dpy o = None
           \/ exists info, XRRGetOutputInfo dpy o = Some info
                /\ compares_equal output_name info
                /\ XRRGetCrtcInfo dpy (crtc info) = None).

(** The encoding [maj * 1000 + min] of the reported version stays
    within [int]: no signed overflow, which C leaves undefined. *)
Definition version_fits (dpy : Display) : Prop :=
  forall maj min, XRRQueryVersion dpy = Some (maj, min) ->
    int_range (maj * 1000) /\ int_range (maj * 1000 + min).

(** The positions of the CRTCs and the geometry of the Xinerama
    screens are values of their C types, [int] and [short]. *)
Definition int_geometry (dpy : Display) : Prop :=
  (forall id c, XRRGetCrtcInfo dpy id = Some c -> int_range (x c) /\ int_range (y c))
  /\ (forall s, In s (XineramaQueryScreens dpy).2 ->
        int_range (x_org s) /\ int_range (y_org s)
        /\ int_range (xi_width s) /\ int_range (xi_height s)).

(** The characters ['0'] to ['9']. *)
Definition is_digit (c : ascii) : Prop := 48 <= uchar c <= 57.

(** A float that is a number (neither an infinity nor NaN) between 0
    and 1. *)
Definition unit_interval (f : spec_float) : Prop :=
  FP.finite f = true /\ (0 <= FP.value f <= 1)%Q.

(** A normal [double]: 53 bits of mantissa and an exponent in range. *)
Definition normal_double (m : positive) (e : Z) : Prop :=
  Z.pos (digits2_pos m) = 53 /\ -1074 <= e <= 971.

(** * Floating point facts *)

Section Digits.

Lemma digits2_pos_iter (m k : positive) :
  digits2_pos (Pos.iter xO m k) = (digits2_pos m + k)%positive.
Proof.
  induction k as [|k IH] using Pos.peano_ind.
  - simpl. lia.
  - rewrite Pos.iter_succ. simpl. rewrite IH. lia.
Qed.

Lemma iter_xO_value (p k : positive) :
  Z.pos (Pos.iter xO p k) = Z.pos p * 2 ^ Z.pos k.
Proof.
  induction k as [|k IH] using Pos.peano_ind.
  - simpl. lia.
  - rewrite Pos.iter_succ, Pos2Z.inj_xO, IH, Pos2Z.inj_succ, Z.pow_succ_r by lia.
    ring.
Qed.

(** A positive number of [d] bits lies between [2^(d-1)] and [2^d]. *)
Lemma digits2_pos_bound (p : positive) :
  2 ^ (Z.pos (digits2_pos p) - 1) <= Z.pos p < 2 ^ Z.pos (digits2_pos p).
Proof.
  induction p as [p IH|p IH|]; simpl digits2_pos; [| |simpl; lia].
  all: rewrite Pos2Z.inj_succ.
  all: replace (Z.succ (Z.pos (digits2_pos p)) - 1)
         with (Z.succ (Z.pos (digits2_pos p) - 1)) by lia.
  all: rewrite !Z.pow_succ_r by lia.
  all: generalize dependent (2 ^ (Z.pos (digits2_pos p) - 1)).
  all: generalize dependent (2 ^ Z.pos (digits2_pos p)); lia.
Qed.

Lemma digits2_pos_le (p : positive) (k : Z) :
  0 <= k -> Z.pos p < 2 ^ k -> Z.pos (digits2_pos p) <= k.
Proof.
  intros Hk Hp.
  destruct (Z.le_gt_cases (Z.pos (digits2_pos p)) k) as [|Hgt]; [done|].
  pose proof (digits2_pos_bound p) as [Hlo _].
  assert (2 ^ k <= 2 ^ (Z.pos (digits2_pos p) - 1))
    by (apply Z.pow_le_mono_r; lia).
  lia.
Qed.

Lemma digits2_pos_ge (p : positive) (k : Z) :
  2 ^ (k - 1) <= Z.pos p -> k <= Z.pos (digits2_pos p).
Proof.
  intros Hp.
  destruct (Z.le_gt_cases k (Z.pos (digits2_pos p))) as [|Hgt]; [done|].
  pose proof (digits2_pos_bound p) as [_ Hhi].
  assert (2 ^ Z.pos (digits2_pos p) <= 2 ^ (k - 1))
    by (apply Z.pow_le_mono_r; lia).
  lia.
Qed.

Lemma digits2_pos_succ (p : positive) :
  Z.pos (digits2_pos (Pos.succ p)) = Z.pos (digits2_pos p)
  \/ Z.pos (digits2_pos (Pos.succ p)) = Z.pos (digits2_pos p) + 1.
Proof.
  induction p as [p IH|p IH|]; simpl; [|by left|by right].
  rewrite !Pos2Z.inj_succ. lia.
Qed.

Lemma Zdigits2_positive (z : Z) :
  0 <= z -> 0 < Zdigits2 z ->
  exists p, z = Z.pos p /\ Zdigits2 z = Z.pos (digits2_pos p).
Proof. destruct z as [|p|p]; simpl; [lia| |lia]. intros _ _. by exists p. Qed.

Lemma floor_pow2 (m n : Z) :
  0 <= n -> (m / 2 ^ n) * 2 ^ n <= m < (m / 2 ^ n + 1) * 2 ^ n.
Proof.
  intros Hn. assert (0 < 2 ^ n) by (apply Z.pow_pos_nonneg; lia).
  pose proof (Z.mul_div_le m (2 ^ n) ltac:(lia)).
  pose proof (Z.mul_succ_div_gt m (2 ^ n) ltac:(lia)). lia.
Qed.

End Digits.

(** Rounding to nearest in a format of [prec] bits. *)
Section Rounding.

Variables prec emax : Z.
Hypothesis prec_pos : 0 < prec.

Lemma shr_m_of_loc (m : Z) (l : location) : shr_m (shr_record_of_loc m l) = m.
Proof. by destruct l as [|[]]. Qed.

(** One shift to the right halves the mantissa and takes one bit off. *)
Lemma shr_1_value (mrs : shr_record) :
  0 <= shr_m mrs -> shr_m (shr_1 mrs) = shr_m mrs / 2.
Proof.
  destruct mrs as [[|p|p] r s]; simpl; [done| |lia].
  intros _. destruct p as [p|p|]; simpl shr_m.
  - rewrite Pos2Z.inj_xI. apply Z.div_unique with 1; lia.
  - rewrite Pos2Z.inj_xO. apply Z.div_unique with 0; lia.
  - done.
Qed.

Lemma shr_1_digits (mrs : shr_record) :
  0 <= shr_m mrs ->
  0 <= shr_m (shr_1 mrs)
  /\ Zdigits2 (shr_m (shr_1 mrs)) = Z.max 0 (Zdigits2 (shr_m mrs) - 1).
Proof.
  destruct mrs as [[|p|p] r s]; simpl; [lia| |lia].
  intros _. destruct p; simpl; lia.
Qed.

Lemma iter_shr_1_digits (k : positive) (mrs : shr_record) :
  0 <= shr_m mrs ->
  0 <= shr_m (SpecFloat.iter_pos shr_1 k mrs)
  /\ Zdigits2 (shr_m (SpecFloat.iter_pos shr_1 k mrs))
     = Z.max 0 (Zdigits2 (shr_m mrs) - Z.pos k).
Proof.
  revert mrs. induction k as [k IH|k IH|]; intros mrs Hm; simpl SpecFloat.iter_pos.
  - destruct (shr_1_digits mrs Hm) as [H1 D1].
    destruct (IH _ H1) as [H2 D2]. destruct (IH _ H2) as [H3 D3].
    split; [done|]. rewrite D3, D2, D1. lia.
  - destruct (IH _ Hm) as [H2 D2]. destruct (IH _ H2) as [H3 D3].
    split; [done|]. rewrite D3, D2. lia.
  - by apply shr_1_digits.
Qed.

Lemma iter_shr_1_value (k : positive) (mrs : shr_record) :
  0 <= shr_m mrs ->
  shr_m (SpecFloat.iter_pos shr_1 k mrs) = shr_m mrs / 2 ^ Z.pos k.
Proof.
  revert mrs. induction k as [k IH|k IH|]; intros mrs Hm; simpl SpecFloat.iter_pos.
  - pose proof (shr_1_digits mrs Hm) as [H1 _].
    pose proof (iter_shr_1_digits k _ H1) as [H2 _].
    rewrite (IH _ H2), (IH _ H1), (shr_1_value _ Hm).
    rewrite !Z.div_div by lia. f_equal.
    replace (Z.pos k~1) with (1 + Z.pos k + Z.pos k) by lia.
    rewrite !Z.pow_add_r by lia. rewrite Z.pow_1_r. ring.
  - pose proof (iter_shr_1_digits k _ Hm) as [H2 _].
    rewrite (IH _ H2), (IH _ Hm). rewrite Z.div_div by lia. f_equal.
    replace (Z.pos k~0) with (Z.pos k + Z.pos k) by lia.
    by rewrite Z.pow_add_r by lia.
  - rewrite Z.pow_1_r. by apply shr_1_value.
Qed.

(** Shifting a mantissa of [d >= prec] bits into the format leaves
    exactly [prec] bits: the mantissa divided by [2^(d - prec)]. *)
Lemma shr_fexp_normal (m : positive) (e : Z) (l : location) :
  let d := Z.pos (digits2_pos m) in
  prec <= d -> emin prec emax <= d + e - prec ->
  exists m1 r s,
    shr_fexp prec emax (Z.pos m) e l
    = ({| shr_m := Z.pos m1; shr_r := r; shr_s := s |}, d + e - prec)
    /\ Z.pos (digits2_pos m1) = prec
    /\ Z.pos m1 = Z.pos m / 2 ^ (d - prec).
Proof.
  intros d Hd He. unfold shr_fexp, fexp. simpl Zdigits2. fold d.
  replace (Z.max (d + e - prec) (emin prec emax) - e) with (d - prec) by lia.
  unfold shr. destruct (d - prec) as [|k|k] eqn:Hk; [|clear Hd|lia].
  - rewrite Z.div_1_r.
    destruct l as [|[]]; simpl; eexists _, _, _; (split; [f_equal; lia|]); split; lia.
  - destruct (iter_shr_1_digits k (shr_record_of_loc (Z.pos m) l)) as [Hpos Hdig].
    { rewrite shr_m_of_loc. lia. }
    pose proof (iter_shr_1_value k (shr_record_of_loc (Z.pos m) l)) as Hval.
    rewrite shr_m_of_loc in Hdig, Hval. simpl Zdigits2 in Hdig. fold d in Hdig.
    destruct (Zdigits2_positive _ Hpos) as (m1 & Hm1 & Hd1); [lia|].
    destruct (SpecFloat.iter_pos shr_1 k _) as [m' r s]. simpl in *. subst m'.
    exists m1, r, s. split; [f_equal; lia|]. split; [lia|]. apply Hval. lia.
Qed.

(** Rounding keeps the mantissa or adds one to it. *)
Lemma round_nearest_even_next (m : positive) (l : location) :
  exists m', round_nearest_even (Z.pos m) l = Z.pos m'
    /\ (m' = m \/ m' = Pos.succ m).
Proof.
  assert (Z.pos m + 1 = Z.pos (Pos.succ m)) as Hs by lia.
  destruct l as [|[]]; unfold round_nearest_even.
  - exists m. auto.
  - destruct (Z.even (Z.pos m)); [exists m; auto|].
    rewrite Hs. exists (Pos.succ m). auto.
  - exists m. auto.
  - rewrite Hs. exists (Pos.succ m). auto.
Qed.

(** A positive number of at least [prec] bits whose exponent is within
    the normal range is rounded to a normal number (there is neither
    overflow nor underflow), one unit in the last place away from it
    at most. *)
Lemma binary_round_aux_close (sx : bool) (m : positive) (e : Z) (l : location) :
  let d := Z.pos (digits2_pos m) in
  prec <= d -> emin prec emax <= d + e - prec -> d + e - prec + 1 <= emax - prec ->
  exists m' e',
    binary_round_aux prec emax sx (Z.pos m) e l = S754_finite sx m' e'
    /\ Z.pos (digits2_pos m') = prec
    /\ d + e - prec <= e' <= d + e - prec + 1
    /\ (Z.pos m' - 1) * 2 ^ (e' - e) <= Z.pos m
    /\ Z.pos m + 1 <= (Z.pos m' + 1) * 2 ^ (e' - e).
Proof.
  intros d Hd Hlo Hhi. unfold binary_round_aux.
  destruct (shr_fexp_normal m e l Hd Hlo) as (m1 & r & s & H1 & Hd1 & Hv1).
  fold d in H1, Hv1. rewrite H1. cbn [shr_m].
  destruct (round_nearest_even_next m1
              (loc_of_shr_record {| shr_m := Z.pos m1; shr_r := r; shr_s := s |}))
    as (m2 & -> & Hm2).
  assert (Z.pos (digits2_pos m1) <= Z.pos (digits2_pos m2)
          <= Z.pos (digits2_pos m1) + 1) as Hd2.
  { destruct Hm2 as [->| ->]; [lia|]. pose proof (digits2_pos_succ m1). lia. }
  destruct (shr_fexp_normal m2 (d + e - prec) loc_Exact)
    as (m3 & r3 & s3 & -> & Hd3 & Hv3); [lia|lia|].
  cbn [shr_m].
  set (n1 := d - prec) in *. set (n2 := Z.pos (digits2_pos m2) - prec) in *.
  exists m3, (Z.pos (digits2_pos m2) + (d + e - prec) - prec).
  split.
  { destruct (Z.leb_spec (Z.pos (digits2_pos m2) + (d + e - prec) - prec) (emax - prec));
      [done|lia]. }
  split; [done|]. split; [lia|].
  replace (Z.pos (digits2_pos m2) + (d + e - prec) - prec - e) with (n1 + n2) by lia.
  assert (0 <= n1) by lia. assert (0 <= n2 <= 1) by lia.
  rewrite Z.pow_add_r by lia.
  pose proof (floor_pow2 (Z.pos m) n1 ltac:(lia)) as F1. rewrite <- Hv1 in F1.
  pose proof (floor_pow2 (Z.pos m2) n2 ltac:(lia)) as F3. rewrite <- Hv3 in F3.
  assert (0 < 2 ^ n1) by (apply Z.pow_pos_nonneg; lia).
  assert (1 <= 2 ^ n2) by (pose proof (Z.pow_pos_nonneg 2 n2); lia).
  assert (Z.pos m2 = Z.pos m1 \/ Z.pos m2 = Z.pos m1 + 1) as Hz
    by (destruct Hm2 as [->| ->]; lia).
  split.
  - assert ((Z.pos m3 - 1) * 2 ^ n2 <= Z.pos m1) by nia.
    nia.
  - assert (Z.pos m1 + 1 <= (Z.pos m3 + 1) * 2 ^ n2) by nia.
    nia.
Qed.

End Rounding.

Section Doubles.

(** Rounding a number that is already a normal double changes nothing. *)
Lemma round_normal_double (s : bool) (m : positive) (e : Z) :
  normal_double m e ->
  binary_round_aux 53 1024 s (Z.pos m) e loc_Exact = S754_finite s m e.
Proof.
  intros [Hd He]. unfold binary_round_aux, shr_fexp, Zdigits2, fexp, emin.
  simpl shr_record_of_loc. rewrite Hd.
  replace (Z.max (53 + e - 53) (3 - 1024 - 53) - e) with 0 by lia.
  simpl. rewrite Hd.
  replace (Z.max (53 + e - 53) (3 - 1024 - 53) - e) with 0 by lia.
  simpl. destruct (Z.leb_spec e (1024 - 53)); [done|lia].
Qed.

(** Every nonzero integer of magnitude below 2^53, so every nonzero
    [int], is converted without rounding to a normal double. *)
Lemma binary_round_int (s : bool) (p : positive) :
  Z.pos p < 2 ^ 53 ->
  exists m e, binary_round 53 1024 s p 0 = S754_finite s m e
              /\ normal_double m e /\ -52 <= e <= 0
              /\ Z.pos m = Z.pos p * 2 ^ (- e).
Proof.
  intros Hlt. unfold binary_round, shl_align, fexp, emin.
  pose proof (digits2_pos_le p 53 ltac:(lia) Hlt) as Hd.
  assert (0 < Z.pos (digits2_pos p)) by lia.
  destruct (Z.max (Z.pos (digits2_pos p) + 0 - 53) (3 - 1024 - 53) - 0)
    as [|k|k] eqn:E.
  - exists p, 0. assert (normal_double p 0) by (split; lia).
    split; [by apply round_normal_double|]. split; [done|]. split; [lia|].
    simpl. lia.
  - lia.
  - exists (Pos.iter xO p k),
      (Z.max (Z.pos (digits2_pos p) + 0 - 53) (3 - 1024 - 53)).
    assert (normal_double (Pos.iter xO p k)
              (Z.max (Z.pos (digits2_pos p) + 0 - 53) (3 - 1024 - 53))).
    { split; [rewrite digits2_pos_iter|]; lia. }
    split; [by apply round_normal_double|]. split; [done|]. split; [lia|].
    rewrite iter_xO_value. f_equal. f_equal. lia.
Qed.

Lemma double_of_int_nonzero (z : Z) :
  z <> 0 -> - 2 ^ 53 < z < 2 ^ 53 ->
  exists m e, FP.double_of_int z = S754_finite (z <? 0) m e
              /\ normal_double m e /\ -52 <= e <= 0
              /\ Z.pos m = Z.abs z * 2 ^ (- e).
Proof.
  intros Hz Hr. destruct z as [|p|p]; [done| |]; apply binary_round_int; lia.
Qed.

Lemma double_of_int_normal (W : Z) :
  0 < W < 2 ^ 53 ->
  exists m e, FP.double_of_int W = S754_finite false m e /\ normal_double m e.
Proof.
  intros HW. destruct (double_of_int_nonzero W) as (m & e & Heq & Hn & _); [lia|lia|].
  exists m, e. split; [|done]. rewrite Heq. by destruct (Z.ltb_spec W 0); [lia|].
Qed.

Lemma shr_fexp_52 (m : positive) (e : Z) :
  normal_double m e ->
  shr_fexp 53 1024 (Z.pos (Pos.iter xO m 52)) (-52 + e) loc_Exact
  = ({| shr_m := Z.pos m; shr_r := false; shr_s := false |}, e).
Proof.
  intros [Hd He]. unfold shr_fexp, Zdigits2. rewrite digits2_pos_iter.
  unfold fexp, emin.
  replace (Z.max _ _ - _) with 52 by lia.
  unfold shr. replace (-52 + e + 52) with e by lia. reflexivity.
Qed.

(** [1.0 * d] is [d]. *)
Lemma double_mul_1_0 (s : bool) (m : positive) (e : Z) :
  normal_double m e ->
  FP.double_mul FP.double_1_0 (S754_finite s m e) = S754_finite s m e.
Proof.
  intros Hn. unfold FP.double_mul, FP.double_1_0, SFmul.
  change (4503599627370496 * m)%positive with (Pos.iter xO m 52).
  unfold binary_round_aux. rewrite (shr_fexp_52 _ _ Hn).
  destruct Hn as [Hd He].
  unfold shr_fexp, Zdigits2, fexp, emin. simpl. rewrite Hd.
  replace (Z.max _ _ - _) with 0 by lia.
  simpl. destruct (Z.leb_spec e (1024 - 53)); [done|lia].
Qed.

(** [d / d] is [1.0] for every finite nonzero [d]. *)
Lemma double_div_self (s : bool) (m : positive) (e : Z) :
  FP.double_div (S754_finite s m e) (S754_finite s m e) = FP.double_1_0.
Proof.
  unfold FP.double_div, SFdiv, SFdiv_core_binary.
  rewrite !Z.sub_diag, xorb_nilpotent.
  change (Z.min (fexp 53 1024 0) 0) with (-53).
  change (0 - -53) with 53.
  cbv beta iota zeta.
  rewrite Z.shiftl_mul_pow2 by lia.
  assert (Z.div_eucl (Z.pos m * 2 ^ 53) (Z.pos m) = (2 ^ 53, 0)) as ->.
  { pose proof (Z.div_mul (2 ^ 53) (Z.pos m) ltac:(lia)) as Hq.
    pose proof (Z.mod_mul (2 ^ 53) (Z.pos m) ltac:(lia)) as Hr.
    unfold Z.div, Z.modulo in Hq, Hr. rewrite (Z.mul_comm (Z.pos m)).
    destruct (Z.div_eucl (2 ^ 53 * Z.pos m) (Z.pos m)) as [q r].
    by rewrite Hq, Hr. }
  unfold new_location, new_location_even, new_location_odd.
  simpl Z.eqb. destruct (Z.even (Z.pos m)); reflexivity.
Qed.

Lemma normal_mantissa (m : positive) :
  Z.pos (digits2_pos m) = 53 -> 2 ^ 52 <= Z.pos m < 2 ^ 53.
Proof. intros Hd. pose proof (digits2_pos_bound m) as H. by rewrite Hd in H. Qed.

Lemma quotient_bounds (a b q r : Z) :
  2 ^ 52 <= a < 2 ^ 53 -> 2 ^ 52 <= b < 2 ^ 53 ->
  a * 2 ^ 53 = b * q + r -> 0 <= r < b ->
  2 ^ 52 <= q < 2 ^ 54.
Proof.
  change (2 ^ 52) with 4503599627370496. change (2 ^ 53) with 9007199254740992.
  change (2 ^ 54) with 18014398509481984.
  intros Ha Hb Heq Hr. split.
  - destruct (Z.le_gt_cases 4503599627370496 q) as [|Hq]; [done|]. exfalso.
    assert (b * q <= b * 4503599627370495) by (apply Z.mul_le_mono_nonneg_l; lia).
    lia.
  - destruct (Z.le_gt_cases 18014398509481984 q) as [Hq|]; [|done]. exfalso.
    assert (b * 18014398509481984 <= b * q) by (apply Z.mul_le_mono_nonneg_l; lia).
    lia.
Qed.

(** The quotient of two normal doubles of moderate exponent is a
    normal double, one unit in the last place away from the exact
    quotient at most. *)
Lemma double_div_close (sa sb : bool) (ma mb : positive) (ea eb : Z) :
  normal_double ma ea -> normal_double mb eb -> -1000 <= ea - eb <= 1000 ->
  exists m e,
    FP.double_div (S754_finite sa ma ea) (S754_finite sb mb eb)
    = S754_finite (xorb sa sb) m e
    /\ Z.pos (digits2_pos m) = 53 /\ 0 <= e - (ea - eb - 53) <= 2
    /\ Z.pos mb * ((Z.pos m - 1) * 2 ^ (e - (ea - eb - 53))) <= Z.pos ma * 2 ^ 53
    /\ Z.pos ma * 2 ^ 53 < Z.pos mb * ((Z.pos m + 1) * 2 ^ (e - (ea - eb - 53))).
Proof.
  intros [Hda _] [Hdb _] He.
  unfold FP.double_div, SFdiv, SFdiv_core_binary. simpl Zdigits2. rewrite Hda, Hdb.
  replace (Z.min (fexp 53 1024 (53 + ea - (53 + eb))) (ea - eb)) with (ea - eb - 53)
    by (unfold fexp, emin; lia).
  replace (ea - eb - (ea - eb - 53)) with 53 by lia. cbv beta iota zeta.
  rewrite Z.shiftl_mul_pow2 by lia.
  pose proof (Z.div_eucl_eq (Z.pos ma * 2 ^ 53) (Z.pos mb) ltac:(lia)) as Heq.
  pose proof (Z.mod_pos_bound (Z.pos ma * 2 ^ 53) (Z.pos mb) ltac:(lia)) as Hr.
  unfold Z.modulo in Hr.
  destruct (Z.div_eucl (Z.pos ma * 2 ^ 53) (Z.pos mb)) as [q r].
  pose proof (quotient_bounds _ _ q r (normal_mantissa _ Hda) (normal_mantissa _ Hdb)
                Heq Hr) as Hq.
  destruct q as [|q|q]; [lia| |lia].
  assert (53 <= Z.pos (digits2_pos q) <= 54) as Hdq.
  { split; [apply digits2_pos_ge|apply digits2_pos_le]; lia. }
  destruct (binary_round_aux_close 53 1024 ltac:(lia) (xorb sa sb) q (ea - eb - 53)
              (new_location (Z.pos mb) r)) as (m & e & -> & Hd & Hexp & Hlo & Hhi);
    [lia|unfold emin; lia|lia|].
  exists m, e. split; [done|]. split; [done|]. split; [lia|].
  set (N := 2 ^ (e - (ea - eb - 53))) in *.
  rewrite Heq. split.
  - assert (Z.pos mb * ((Z.pos m - 1) * N) <= Z.pos mb * Z.pos q)
      by (apply Z.mul_le_mono_nonneg_l; lia).
    lia.
  - assert (Z.pos mb * (Z.pos q + 1) <= Z.pos mb * ((Z.pos m + 1) * N))
      by (apply Z.mul_le_mono_nonneg_l; lia).
    lia.
Qed.

(** A normal double of moderate exponent converts to a normal float,
    one unit in the last place away from it at most. *)
Lemma float_of_double_close (s : bool) (m : positive) (e : Z) :
  Z.pos (digits2_pos m) = 53 -> -150 <= e <= 50 ->
  exists m' e', FP.float_of_double (S754_finite s m e) = S754_finite s m' e'
    /\ 29 <= e' - e <= 30
    /\ (Z.pos m' - 1) * 2 ^ (e' - e) <= Z.pos m
    /\ Z.pos m + 1 <= (Z.pos m' + 1) * 2 ^ (e' - e).
Proof.
  intros Hd He. unfold FP.float_of_double, binary_round, shl_align, fexp, emin.
  rewrite Hd.
  destruct (Z.max (53 + e - 24) (3 - 128 - 24) - e) as [|k|k] eqn:Hk; [lia| |lia].
  destruct (binary_round_aux_close 24 128 ltac:(lia) s m e loc_Exact)
    as (m' & e' & -> & _ & Hexp & Hlo & Hhi); [lia|unfold emin; lia|lia|].
  exists m', e'. split; [done|]. split; [lia|done].
Qed.

Lemma int_range_2_53 (a : Z) : int_range a -> - 2 ^ 53 < a < 2 ^ 53.
Proof.
  unfold int_range, INT_MIN, INT_MAX. change (2 ^ 53) with 9007199254740992. lia.
Qed.

Lemma positive_int_2_53 (W : Z) : 0 < W <= INT_MAX -> 0 < W < 2 ^ 53.
Proof.
  unfold INT_MAX. change (2 ^ 53) with 9007199254740992. lia.
Qed.

Lemma double_mul_1_0_int (a : Z) :
  int_range a ->
  FP.double_mul FP.double_1_0 (FP.double_of_int a) = FP.double_of_int a.
Proof.
  intros Ha%int_range_2_53. destruct (Z.eq_dec a 0) as [->|Hne]; [done|].
  destruct (double_of_int_nonzero a Hne Ha) as (m & e & -> & Hn & _).
  by apply double_mul_1_0.
Qed.

(** The program's [1.0 * a / b] is the quotient [a / b]. *)
Lemma ratio_quotient (a b : Z) : int_range a -> FP.ratio a b = FP.quotient a b.
Proof.
  intros Ha. unfold FP.ratio, FP.quotient. by rewrite double_mul_1_0_int.
Qed.

(** The whole extent over itself is exactly one. *)
Lemma ratio_self (W : Z) : 0 < W <= INT_MAX -> FP.ratio W W = FP.float_one.
Proof.
  intros HW. apply positive_int_2_53, double_of_int_normal in HW as (m & e & HW & Hn).
  unfold FP.ratio. rewrite HW, (double_mul_1_0 _ _ _ Hn), double_div_self.
  reflexivity.
Qed.

(** No offset over a positive extent is exactly [+0.0]. *)
Lemma quotient_zero (W : Z) : 0 < W <= INT_MAX -> FP.quotient 0 W = FP.float_zero.
Proof.
  intros HW. apply positive_int_2_53, double_of_int_normal in HW as (m & e & HW & _).
  unfold FP.quotient. rewrite HW. reflexivity.
Qed.

Lemma ratio_zero (W : Z) : 0 < W <= INT_MAX -> FP.ratio 0 W = FP.float_zero.
Proof.
  intros HW. rewrite ratio_quotient by (unfold int_range, INT_MIN, INT_MAX; lia).
  by apply quotient_zero.
Qed.

(** Two roundings of one unit in the last place each, of 53 and of 24
    bits, stay within one part in [2^21]. *)
Lemma combine_errors (P u md mf c : Z) :
  0 < u -> 2 ^ 52 <= md -> 0 < c <= 2 ^ 30 ->
  u * (md - 1) <= P -> P < u * (md + 1) ->
  (mf - 1) * c <= md -> md + 1 <= (mf + 1) * c ->
  Z.abs (mf * c * u - P) * 2 ^ 21 <= P.
Proof.
  change (2 ^ 52) with 4503599627370496. change (2 ^ 30) with 1073741824.
  change (2 ^ 21) with 2097152.
  intros Hu Hmd Hc Hlo Hhi Hflo Hfhi.
  assert (u * (mf * c) <= u * (md + c)) by (apply Z.mul_le_mono_nonneg_l; lia).
  assert (u * (md + 1 - c) <= u * (mf * c)) by (apply Z.mul_le_mono_nonneg_l; lia).
  assert (u * 4503599627370495 <= u * (md - 1)) by (apply Z.mul_le_mono_nonneg_l; lia).
  assert (u * c <= u * 1073741824) by (apply Z.mul_le_mono_nonneg_l; lia).
  replace (mf * c * u) with (u * (mf * c)) by ring.
  rewrite !Z.mul_add_distr_l, !Z.mul_sub_distr_l in *.
  lia.
Qed.

(** The quotient of a nonzero [int] by a positive one is a normal
    float with the sign of the dividend; scaled by [2^K] to integers,
    it is the exact quotient to within one part in [2^21]. *)
Lemma quotient_close_scaled (a b : Z) :
  int_range a -> a <> 0 -> 0 < b <= INT_MAX ->
  exists mf ef K,
    FP.quotient a b = S754_finite (a <? 0) mf ef
    /\ 0 <= K /\ 0 <= ef + K
    /\ Z.abs (Z.pos mf * 2 ^ (ef + K) * b - Z.abs a * 2 ^ K) * 2 ^ 21
       <= Z.abs a * 2 ^ K.
Proof.
  intros Ha%int_range_2_53 Hne Hb. unfold FP.quotient.
  assert (- 2 ^ 53 < b < 2 ^ 53) as Hb'
    by (apply int_range_2_53; unfold int_range, INT_MIN; lia).
  destruct (double_of_int_nonzero b ltac:(lia) Hb') as (mb & eb & -> & Hnb & Heb & Hvb).
  destruct (double_of_int_nonzero a Hne Ha) as (ma & ea & -> & Hna & Hea & Hva).
  destruct (double_div_close (a <? 0) (b <? 0) ma mb ea eb Hna Hnb ltac:(lia))
    as (md & ed & -> & Hd & HN & Hlo & Hhi).
  destruct (float_of_double_close (xorb (a <? 0) (b <? 0)) md ed Hd ltac:(lia))
    as (mf & ef & -> & HN' & Hflo & Hfhi).
  replace (b <? 0) with false by (symmetry; apply Z.ltb_ge; lia).
  rewrite xorb_false_r.
  exists mf, ef, (53 - ea). split; [done|]. split; [lia|]. split; [lia|].
  set (N := ed - (ea - eb - 53)) in *. set (N' := ef - ed) in *.
  replace (ef + (53 - ea)) with (N' + N + - eb) by lia.
  replace (53 - ea) with (- ea + 53) by lia.
  rewrite !Z.pow_add_r by lia.
  replace (Z.abs a * (2 ^ (- ea) * 2 ^ 53)) with (Z.pos ma * 2 ^ 53)
    by (rewrite Hva; lia).
  replace (Z.pos mf * (2 ^ N' * 2 ^ N * 2 ^ (- eb)) * b)
    with (Z.pos mf * 2 ^ N' * (Z.pos mb * 2 ^ N))
    by (rewrite Hvb, (Z.abs_eq b) by lia; lia).
  assert (0 < 2 ^ N) by (apply Z.pow_pos_nonneg; lia).
  assert (0 < 2 ^ N' <= 2 ^ 30).
  { split; [apply Z.pow_pos_nonneg; lia|apply Z.pow_le_mono_r; lia]. }
  apply (combine_errors _ _ (Z.pos md)); try done.
  - lia.
  - by apply normal_mantissa.
  - rewrite <- Hlo. apply Z.eq_le_incl. ring.
  - eapply Z.lt_le_trans; [apply Hhi|]. apply Z.eq_le_incl. ring.
Qed.

(** Over a positive extent the quotient is a number: neither an
    infinity nor NaN. *)
Lemma quotient_finite (a b : Z) :
  int_range a -> 0 < b <= INT_MAX -> FP.finite (FP.quotient a b) = true.
Proof.
  intros Ha Hb. destruct (Z.eq_dec a 0) as [->|Hne].
  - by rewrite quotient_zero.
  - by destruct (quotient_close_scaled a b Ha Hne Hb) as (mf & ef & K & -> & _).
Qed.

(** What the three float constants of the matrices are. *)
Lemma float_constants :
  FP.quotient 0 1 = FP.float_zero
  /\ FP.quotient 1 1 = FP.float_one
  /\ FP.quotient 1 2 = FP.float_half
  /\ FP.float_of_int 1 = FP.float_one.
Proof. by repeat split. Qed.

End Doubles.

Section Rationals.

Lemma Qpower2_frac (e K : Z) :
  0 <= K -> 0 <= e + K ->
  ((2 # 1) ^ e == inject_Z (2 ^ (e + K)) / inject_Z (2 ^ K))%Q.
Proof.
  intros HK HeK. rewrite !Zpower_Qpower by lia.
  change (inject_Z 2) with (2 # 1)%Q.
  rewrite Qpower_plus by done.
  rewrite Qdiv_mult_l; [reflexivity|]. by apply Qpower_not_0.
Qed.

(** From the integers scaled by [2^K] back to the rationals. *)
Lemma close_to_scaled (s : bool) (m : positive) (e K a b : Z) :
  0 < b -> a <> 0 -> s = (a <? 0) -> 0 <= K -> 0 <= e + K ->
  Z.abs (Z.pos m * 2 ^ (e + K) * b - Z.abs a * 2 ^ K) * 2 ^ 21 <= Z.abs a * 2 ^ K ->
  FP.close_to (S754_finite s m e) a b.
Proof.
  intros Hb Ha Hs HK HeK Hclose. unfold FP.close_to, FP.value.
  rewrite (Qpower2_frac e K HK HeK).
  assert (0 < 2 ^ (e + K)) as HX by (apply Z.pow_pos_nonneg; lia).
  assert (0 < 2 ^ K) as HT by (apply Z.pow_pos_nonneg; lia).
  revert Hclose. change (2 ^ 21) with 2097152.
  generalize dependent (2 ^ (e + K)). generalize dependent (2 ^ K).
  intros T HT X HX Hclose.
  destruct T as [|t|t]; [lia| |lia]. destruct b as [|b|b]; [lia| |lia].
  unfold Qle, Qabs, Qminus, Qplus, Qopp, Qmult, Qdiv, Qinv, inject_Z. simpl.
  rewrite !Pos.mul_1_l, !Pos2Z.inj_mul, !Z.mul_1_r, !Z.mul_1_l.
  assert (forall D, Z.abs D * 2097152 <= Z.abs a * Z.pos t ->
                    Z.abs D * (2097152 * Z.pos b) <= Z.abs a * (Z.pos t * Z.pos b))
    as Hmul.
  { intros D HD. rewrite !Z.mul_assoc. apply Z.mul_le_mono_nonneg_r; lia. }
  subst s. destruct a as [|pa|pa]; [done| |]; simpl cond_Zopp; simpl Z.ltb; cbn iota.
  - apply Hmul. lia.
  - apply Hmul. lia.
Qed.

(** The quotient the program stores is the rational quotient of the
    two integers to within one part in [2^21]. *)
Lemma quotient_close (a b : Z) :
  int_range a -> 0 < b <= INT_MAX -> FP.close_to (FP.quotient a b) a b.
Proof.
  intros Ha Hb. destruct (Z.eq_dec a 0) as [->|Hne].
  - rewrite quotient_zero by done. unfold FP.close_to, Qle. simpl. lia.
  - destruct (quotient_close_scaled a b Ha Hne Hb) as (mf & ef & K & -> & HK & HeK & Hc).
    apply (close_to_scaled _ _ _ K); try done. lia.
Qed.

End Rationals.

(** * The matrix *)

Lemma matrix_set_unity_identity (m : Matrix) :
  matrix_set_unity m = Some identity_matrix.
Proof. reflexivity. Qed.

(** The builder fills the matrix of the specification, whatever the
    matrix held and whatever the geometry. *)
Lemma set_transformation_matrix_rect (dpy : Display) (m : Matrix)
    (offset_x offset_y screen_width screen_height : Z) :
  set_transformation_matrix dpy m offset_x offset_y screen_width screen_height
  = Some (rect_matrix (DisplayWidth dpy) (DisplayHeight dpy)
            offset_x offset_y screen_width screen_height).
Proof.
  unfold set_transformation_matrix, rect_matrix.
  generalize (FP.ratio offset_x (DisplayWidth dpy)) (FP.ratio offset_y (DisplayHeight dpy))
    (FP.ratio screen_width (DisplayWidth dpy)) (FP.ratio screen_height (DisplayHeight dpy)).
  reflexivity.
Qed.

(** C1.  On a display of positive width [W] and height [H], for any
    rectangle (all of them [int]s) the builder returns a nine-entry
    matrix whose entry (0,0) is [rect_w / W], (1,1) is [rect_h / H],
    (0,2) is [offset_x / W] and (1,2) is [offset_y / H]; the other two
    entries of the upper rows are 0 and the bottom row is [0 0 1].
    Each quotient is the one of the two integers computed in double
    precision and stored in a [float]: a number (neither an infinity
    nor NaN) that is the rational quotient to within one part in
    [2^21]. *)
Theorem builder_entries (dpy : Display) (m : Matrix)
    (offset_x offset_y rect_w rect_h : Z) :
  let W := DisplayWidth dpy in
  let H := DisplayHeight dpy in
  0 < W <= INT_MAX -> 0 < H <= INT_MAX ->
  int_range offset_x -> int_range offset_y -> int_range rect_w -> int_range rect_h ->
  exists m' : Matrix,
    set_transformation_matrix dpy m offset_x offset_y rect_w rect_h = Some m'
    /\ length m' = 9%nat
    /\ entry m' 0 0 = Some (FP.quotient rect_w W)
    /\ entry m' 1 1 = Some (FP.quotient rect_h H)
    /\ entry m' 0 2 = Some (FP.quotient offset_x W)
    /\ entry m' 1 2 = Some (FP.quotient offset_y H)
    /\ entry m' 0 1 = Some FP.float_zero
    /\ entry m' 1 0 = Some FP.float_zero
    /\ entry m' 2 0 = Some FP.float_zero
    /\ entry m' 2 1 = Some FP.float_zero
    /\ entry m' 2 2 = Some FP.float_one
    /\ Forall (fun f => FP.finite f = true) m'
    /\ FP.close_to (FP.quotient rect_w W) rect_w W
    /\ FP.close_to (FP.quotient rect_h H) rect_h H
    /\ FP.close_to (FP.quotient offset_x W) offset_x W
    /\ FP.close_to (FP.quotient offset_y H) offset_y H.
Proof.
  intros W H HW HH Hx Hy Hw Hh.
  eexists. split; [apply set_transformation_matrix_rect|].
  unfold rect_matrix, entry. fold W H. rewrite !ratio_quotient by done.
  repeat match goal with |- _ /\ _ => split end;
    try reflexivity; try by apply quotient_close.
  by repeat constructor; try apply quotient_finite.
Qed.

Lemma builder_entries_witness :
  exists m' : Matrix,
    set_transformation_matrix randr_display [] 960 0 960 1080 = Some m'
    /\ length m' = 9%nat
    /\ entry m' 0 0 = Some (FP.quotient 960 1920)
    /\ entry m' 1 1 = Some (FP.quotient 1080 1080)
    /\ entry m' 0 2 = Some (FP.quotient 960 1920)
    /\ entry m' 1 2 = Some (FP.quotient 0 1080)
    /\ entry m' 0 1 = Some FP.float_zero
    /\ entry m' 1 0 = Some FP.float_zero
    /\ entry m' 2 0 = Some FP.float_zero
    /\ entry m' 2 1 = Some FP.float_zero
    /\ entry m' 2 2 = Some FP.float_one
    /\ Forall (fun f => FP.finite f = true) m'
    /\ FP.close_to (FP.quotient 960 1920) 960 1920
    /\ FP.close_to (FP.quotient 1080 1080) 1080 1080
    /\ FP.close_to (FP.quotient 960 1920) 960 1920
    /\ FP.close_to (FP.quotient 0 1080) 0 1080.
Proof.
  apply (builder_entries randr_display [] 960 0 960 1080);
    unfold int_range, INT_MIN, INT_MAX; simpl; lia.
Defined.

(** C6.  For the rectangle that covers the whole display the builder
    returns the identity matrix, on every display whose width and
    height are positive [int]s; and on a display of 1920 by 1080 the
    rectangle (960, 0, 960, 1080) gives m00 = 0.5, m11 = 1.0,
    m02 = 0.5, m12 = 0, m22 = 1 and 0 elsewhere.  The three floats of
    these matrices stand for the numbers 0, 1 and 1/2. *)
Theorem builder_identity_and_right_half :
  (forall (dpy : Display) (m : Matrix),
      0 < DisplayWidth dpy <= INT_MAX -> 0 < DisplayHeight dpy <= INT_MAX ->
      set_transformation_matrix dpy m 0 0 (DisplayWidth dpy) (DisplayHeight dpy)
      = Some identity_matrix)
  /\ (forall (dpy : Display) (m : Matrix),
      DisplayWidth dpy = 1920 -> DisplayHeight dpy = 1080 ->
      set_transformation_matrix dpy m 960 0 960 1080 = Some right_half_matrix)
  /\ (FP.value FP.float_zero == 0 /\ FP.value FP.float_one == 1
      /\ FP.value FP.float_half == 1 # 2)%Q.
Proof.
  split; [|split]; [intros dpy m HW HH..|by repeat split];
    rewrite set_transformation_matrix_rect.
  - unfold rect_matrix.
    by rewrite !ratio_self, !ratio_zero.
  - rewrite HW, HH. reflexivity.
Qed.

Lemma builder_identity_and_right_half_witness :
  set_transformation_matrix randr_display [] 0 0 1920 1080 = Some identity_matrix
  /\ set_transformation_matrix randr_display [] 960 0 960 1080 = Some right_half_matrix.
Proof.
  destruct builder_identity_and_right_half as (Hid & Hhalf & _). split.
  - apply (Hid randr_display []); unfold INT_MAX; simpl; lia.
  - apply (Hhalf randr_display []); reflexivity.
Defined.

(** C10.  What the builder returns does not depend on what the
    caller's matrix held: two calls that differ only in the initial
    matrix return the same matrix, and so resetting the matrix to the
    identity before the call, as both callers do, changes nothing. *)
Theorem builder_ignores_initial_matrix (dpy : Display) (m1 m2 : Matrix)
    (offset_x offset_y screen_width screen_height : Z) :
  set_transformation_matrix dpy m1 offset_x offset_y screen_width screen_height
  = set_transformation_matrix dpy m2 offset_x offset_y screen_width screen_height
  /\ (m ← matrix_set_unity m1;
      set_transformation_matrix dpy m offset_x offset_y screen_width screen_height)
     = set_transformation_matrix dpy m1 offset_x offset_y screen_width screen_height.
Proof.
  split.
  - by rewrite !set_transformation_matrix_rect.
  - rewrite matrix_set_unity_identity. simpl.
    by rewrite !set_transformation_matrix_rect.
Qed.

(** * C strings *)

Section Strings.

Lemma uchar_inj (a b : ascii) : uchar a = uchar b -> a = b.
Proof.
  unfold uchar. intros H. apply N2Z.inj in H.
  rewrite <- (ascii_N_embedding a), <- (ascii_N_embedding b). by rewrite H.
Qed.

Lemma uchar_diff (a b : ascii) : a <> b -> uchar a - uchar b <> 0.
Proof. intros Hne H. apply Hne, uchar_inj. lia. Qed.

Lemma nul_free_cons (c : ascii) (s : string) :
  nul_free (String c s) = true <-> c <> NUL /\ nul_free s = true.
Proof.
  simpl. rewrite andb_true_iff, negb_true_iff. split.
  - intros [Hc Hs]. split; [|done]. by apply Ascii.eqb_neq.
  - intros [Hc Hs]. split; [|done]. by apply Ascii.eqb_neq.
Qed.

Lemma strlen_nul_free (s : string) :
  nul_free s = true -> strlen s = String.length s.
Proof.
  induction s as [|c s IH]; [done|].
  intros [Hc Hs]%nul_free_cons. simpl.
  apply Ascii.eqb_neq in Hc. rewrite Hc. by rewrite IH.
Qed.

(** [strcmp] returns 0 on two C strings exactly when they are equal. *)
Lemma strcmp_eq (s1 s2 : string) :
  nul_free s1 = true -> nul_free s2 = true ->
  strcmp s1 s2 = 0 <-> s1 = s2.
Proof.
  revert s2. induction s1 as [|c1 s1 IH]; intros [|c2 s2] H1 H2.
  - done.
  - apply nul_free_cons in H2 as [Hc _]. simpl. split; [|done].
    intros H. exfalso. apply (uchar_diff c2 NUL Hc).
    change (uchar NUL) with 0 in *. lia.
  - apply nul_free_cons in H1 as [Hc _]. simpl. split; [|done].
    intros H. exfalso. apply (uchar_diff c1 NUL Hc).
    change (uchar NUL) with 0 in *. lia.
  - apply nul_free_cons in H1 as [Hc1 H1].
    apply nul_free_cons in H2 as [Hc2 H2]. simpl.
    destruct (Ascii.eqb_spec c1 c2) as [->|Hne].
    + apply Ascii.eqb_neq in Hc2. rewrite Hc2, (IH s2 H1 H2).
      split; [by intros ->|by intros [= ->]].
    + split; [|by intros [= -> _]].
      intros H. by apply uchar_diff in H.
Qed.

(** Against a prefix without NUL, [strncmp] over the length of the
    prefix returns 0 exactly on the strings that start with it. *)
Lemma strncmp_prefix (p s : string) :
  nul_free p = true ->
  strncmp s p (String.length p) = 0 <-> String.prefix p s = true.
Proof.
  revert s. induction p as [|c p IH]; intros s Hp.
  - by destruct s.
  - apply nul_free_cons in Hp as [Hc Hp]. destruct s as [|c1 s]; simpl.
    + split; [|done]. intros H. exfalso. apply (uchar_diff c NUL Hc).
      change (uchar NUL) with 0 in *. lia.
    + destruct (Ascii.eqb_spec c1 c) as [->|Hne].
      * apply Ascii.eqb_neq in Hc. rewrite Hc.
        destruct (ascii_dec c c); [by apply IH|done].
      * destruct (ascii_dec c c1) as [->|]; [done|].
        split; [|done]. intros H. by apply uchar_diff in H.
Qed.

Lemma char_at_get (s : string) (i : nat) (c : ascii) :
  String.get i s = Some c -> char_at s i = c.
Proof. unfold char_at. by intros ->. Qed.

End Strings.

(** * The property applier *)

Section Applier.

Variable dpy : Display.
Variable deviceid : Z.
Variable m : Matrix.

Local Abbreviation prop_float := (XInternAtom dpy FLOAT false).
Local Abbreviation prop_matrix := (XInternAtom dpy MATRIX false).
Local Abbreviation reply := (XIGetProperty dpy deviceid prop_matrix 0 9 false prop_float).

Lemma property_ok_spec (a : Atom) (r : XIPropertyReply) :
  property_bad a r = false <-> well_formed_property a r.
Proof.
  unfold property_bad, well_formed_property.
  rewrite !orb_false_iff, !negb_false_iff, !Z.eqb_eq. intuition congruence.
Qed.

Lemma property_bad_spec (a : Atom) (r : XIPropertyReply) :
  property_bad a r = true <->
  rc r <> Success \/ type_return r <> a \/ format_return r <> 32
  \/ nitems r <> 9 \/ bytes_after r <> 0.
Proof.
  unfold property_bad.
  rewrite !orb_true_iff, !negb_true_iff, !Z.eqb_neq. intuition congruence.
Qed.

(** The four ways through [apply_matrix]. *)
Lemma apply_matrix_cases :
  (prop_float = 0
   /\ apply_matrix dpy deviceid m = ([Stderr msg_no_float], Some EXIT_FAILURE))
  \/ (prop_float <> 0 /\ prop_matrix = 0
      /\ apply_matrix dpy deviceid m = ([Stderr msg_no_matrix], Some EXIT_FAILURE))
  \/ (prop_float <> 0 /\ prop_matrix <> 0 /\ property_bad prop_float reply = true
      /\ apply_matrix dpy deviceid m = ([Stderr msg_property], Some EXIT_FAILURE))
  \/ (prop_float <> 0 /\ prop_matrix <> 0 /\ property_bad prop_float reply = false
      /\ apply_matrix dpy deviceid m
         = ([ChangeProperty deviceid prop_matrix prop_float 32 PropModeReplace m 9;
             Free (data reply)], Some EXIT_SUCCESS)).
Proof.
  unfold apply_matrix.
  destruct (Z.eqb_spec prop_float 0) as [|Hf]; [by left|right].
  destruct (Z.eqb_spec prop_matrix 0) as [|Hm]; [by left|right].
  destruct (property_bad prop_float reply) eqn:Hok; [by left|right].
  repeat split; try done.
  apply property_ok_spec in Hok as (_ & _ & -> & -> & _). reflexivity.
Qed.

Lemma apply_matrix_failure (t : list event) :
  apply_matrix dpy deviceid m = (t, Some EXIT_FAILURE) ->
  exists message, t = [Stderr message].
Proof.
  destruct apply_matrix_cases as [(_ & ->)|[(_ & _ & ->)|[(_ & _ & _ & ->)|(_ & _ & _ & ->)]]];
    intros [= <-]; eauto.
Qed.

Lemma apply_matrix_returns :
  exists t rc, apply_matrix dpy deviceid m = (t, Some rc)
               /\ (rc = EXIT_SUCCESS \/ rc = EXIT_FAILURE).
Proof.
  destruct apply_matrix_cases as [(_ & ->)|[(_ & _ & ->)|[(_ & _ & _ & ->)|(_ & _ & _ & ->)]]];
    eauto.
Qed.

End Applier.

(** C2.  Once both atoms are resolved: if the property read does not
    succeed, or returns another type than the FLOAT atom, another
    format than 32, another count than 9 or leaves bytes unread, the
    applier writes "Failed to retrieve current property values" on
    standard error and returns failure; if the read passes all five
    checks the matrix is written.  On every run that does not return
    success no property write was sent. *)
Theorem property_validation (dpy : Display) (deviceid : Z) (m : Matrix) :
  let prop_float := XInternAtom dpy FLOAT false in
  let prop_matrix := XInternAtom dpy MATRIX false in
  let reply := XIGetProperty dpy deviceid prop_matrix 0 9 false prop_float in
  let run := apply_matrix dpy deviceid m in
  (prop_float <> 0 -> prop_matrix <> 0 ->
   (rc reply <> Success \/ type_return reply <> prop_float
    \/ format_return reply <> 32 \/ nitems reply <> 9 \/ bytes_after reply <> 0 ->
    run = ([Stderr msg_property], Some EXIT_FAILURE))
   /\ (well_formed_property prop_float reply ->
       run = ([ChangeProperty deviceid prop_matrix prop_float 32 PropModeReplace m 9;
               Free (data reply)], Some EXIT_SUCCESS)))
  /\ (run.2 <> Some EXIT_SUCCESS -> writes run.1 = []).
Proof.
  intros prop_float prop_matrix reply run. subst run.
  destruct (apply_matrix_cases dpy deviceid m)
    as [(Hf & ->)|[(Hf & Hm & ->)|[(Hf & Hm & Hok & ->)|(Hf & Hm & Hok & ->)]]];
    subst prop_float prop_matrix reply.
  - split; [by intros ?|done].
  - split; [by intros ? ?|done].
  - split; [|done]. intros _ _. split; [done|].
    intros Hwf%property_ok_spec. congruence.
  - split; [|by intros ?]. intros _ _. split; [|done].
    intros Hbad%property_bad_spec. congruence.
Qed.

Lemma property_validation_witness :
  let dpy := sample_display ["RANDR"%string] (Some (1, 3)) (reply_of 8) [] in
  apply_matrix dpy 5 identity_matrix = ([Stderr msg_property], Some EXIT_FAILURE).
Proof.
  intros dpy.
  destruct (property_validation dpy 5 identity_matrix) as [H _].
  apply H; [done|done|]. right; right; right; left. done.
Defined.

(** * Runs *)

Section RunLaws.

Context {A B C : Type}.

Lemma bind_ret (a : A) (f : A -> Run B) : mret a ≫= f = f a.
Proof. unfold mret, Run_ret, mbind, Run_bind. by destruct (f a). Qed.

Lemma bind_lift_Some (a : A) (f : A -> Run B) : lift (Some a) ≫= f = f a.
Proof. apply bind_ret. Qed.

Lemma bind_lift_None (f : A -> Run B) : lift None ≫= f = ([], None).
Proof. reflexivity. Qed.

Lemma ret_bind (c : Run A) : c ≫= mret = c.
Proof.
  destruct c as [t [a|]]; unfold mret, Run_ret, mbind, Run_bind; [|done].
  by rewrite app_nil_r.
Qed.

Lemma bind_assoc (c : Run A) (f : A -> Run B) (g : B -> Run C) :
  (c ≫= f) ≫= g = c ≫= (fun a => f a ≫= g).
Proof.
  destruct c as [t [a|]]; unfold mbind, Run_bind; [|done].
  destruct (f a) as [t1 [b|]]; [|done].
  destruct (g b) as [t2 r]. by rewrite app_assoc.
Qed.

End RunLaws.

#[local] Arguments set_transformation_matrix : simpl never.
#[local] Arguments matrix_set_unity : simpl never.
#[local] Arguments apply_matrix : simpl never.

(** * The Xinerama resolver *)

Section XineramaResolver.

Variable dpy : Display.
Variable deviceid : Z.
Variable output_name : string.
Variable m0 : Matrix.

Hypothesis extension : XineramaQueryExtension dpy = true.

Local Abbreviation run := (map_crtc_xinerama dpy deviceid output_name m0).
Local Abbreviation screens := (XineramaQueryScreens dpy).1.
Local Abbreviation infos := (XineramaQueryScreens dpy).2.
Local Abbreviation nscreens := (Z.of_nat (length infos)).

(** The test on the form of the name, in the words of the specification. *)
Lemma name_check :
  nul_free output_name = true ->
  (strlen output_name <? strlen "HEAD-" + 1)%nat
  || negb (strncmp output_name "HEAD-" (strlen "HEAD-") =? 0) = false
  <-> String.prefix "HEAD-" output_name = true /\ (6 <= String.length output_name)%nat.
Proof.
  intros Hnul. rewrite (strlen_nul_free _ Hnul).
  change (strlen "HEAD-") with (String.length "HEAD-").
  rewrite orb_false_iff, negb_false_iff, Z.eqb_eq, Nat.ltb_ge.
  rewrite (strncmp_prefix "HEAD-" output_name eq_refl). simpl. tauto.
Qed.

Lemma rejected_name :
  nul_free output_name = true ->
  String.prefix "HEAD-" output_name = false \/ (String.length output_name < 6)%nat ->
  run = ([Stderr msg_head; Free NULL], Some EXIT_FAILURE).
Proof.
  intros Hnul Hbad. unfold map_crtc_xinerama. rewrite extension. simpl negb.
  destruct (_ || _) eqn:Hcheck; [done|].
  apply (name_check Hnul) in Hcheck as [Hp Hl].
  destruct Hbad; [congruence|lia].
Qed.

(** Past the test on the name, the run is decided by the number of
    screens and the index read off the name. *)
Lemma accepted_name :
  nul_free output_name = true ->
  String.prefix "HEAD-" output_name = true -> (6 <= String.length output_name)%nat ->
  run =
    if nscreens =? 0 then
      ([Stderr msg_no_screens; Free screens], Some EXIT_FAILURE)
    else if nscreens <=? head_of output_name then
      ([Stderr (msg_range nscreens output_name); Free screens], Some EXIT_FAILURE)
    else
      s ← lift (index infos (head_of output_name));
      rc ← apply_matrix dpy deviceid
             (rect_matrix (DisplayWidth dpy) (DisplayHeight dpy)
                (x_org s) (y_org s) (xi_width s) (xi_height s));
      out screens rc.
Proof.
  intros Hnul Hp Hl. unfold map_crtc_xinerama. rewrite extension. simpl negb.
  destruct (_ || _) eqn:Hcheck.
  { assert (true = false) by (rewrite <- Hcheck; apply name_check; done). done. }
  change (strlen "HEAD-") with 5%nat. fold (head_of output_name).
  destruct (XineramaQueryScreens dpy) as [p l]. cbn [fst snd].
  clear Hcheck. destruct (Z.of_nat (length l) =? 0); [done|].
  destruct (Z.of_nat (length l) <=? head_of output_name); [done|].
  rewrite matrix_set_unity_identity.
  destruct (index l (head_of output_name)) as [s|]; [|done].
  cbn [lift mbind Run_bind app]. rewrite set_transformation_matrix_rect.
  by destruct (apply_matrix _ _ _) as [t [rc|]].
Qed.

End XineramaResolver.

Lemma fails_with_stderr (message : string) (p : pointer) :
  fails_with ([Stderr message; Free p], Some EXIT_FAILURE) message.
Proof. by repeat split. Qed.

Lemma index_Some {A : Type} (l : list A) (i : Z) (a : A) :
  index l i = Some a -> 0 <= i < Z.of_nat (length l).
Proof.
  unfold index. destruct (Z.ltb_spec i 0); [done|].
  intros Hl%lookup_lt_Some. lia.
Qed.

Lemma index_negative {A : Type} (l : list A) (i : Z) : i < 0 -> index l i = None.
Proof. unfold index. by destruct (Z.ltb_spec i 0); [|lia]. Qed.

(** C4.  With the Xinerama extension present, for every output name:
    a name that does not start with "HEAD-" or has fewer than 6
    characters fails with the "specify the output name as HEAD-X"
    diagnostic; any other name has the character after the prefix,
    less the character '0', as its screen index ("HEAD-0" gives 0);
    then zero screens fail with "Xinerama failed to query screens", an
    index greater than or equal to the number of screens fails with
    "Found N screens, but you requested ...", and an index inside the
    screen list maps the device to the screen of that index. *)
Theorem xinerama_name_and_range (dpy : Display) (deviceid : Z)
    (output_name : string) (m0 : Matrix) :
  XineramaQueryExtension dpy = true ->
  nul_free output_name = true ->
  let screens := (XineramaQueryScreens dpy).1 in
  let infos := (XineramaQueryScreens dpy).2 in
  let nscreens := Z.of_nat (length infos) in
  let run := map_crtc_xinerama dpy deviceid output_name m0 in
  (String.prefix "HEAD-" output_name = false \/ (String.length output_name < 6)%nat ->
   fails_with run msg_head)
  /\ (String.prefix "HEAD-" output_name = true -> (6 <= String.length output_name)%nat ->
      (forall c, String.get 5 output_name = Some c ->
                 head_of output_name = char_to_int c - char_to_int "0")
      /\ (nscreens = 0 -> fails_with run msg_no_screens)
      /\ (nscreens <> 0 -> nscreens <= head_of output_name ->
          fails_with run (msg_range nscreens output_name))
      /\ (forall s, index infos (head_of output_name) = Some s ->
          run = (rc ← apply_matrix dpy deviceid
                        (rect_matrix (DisplayWidth dpy) (DisplayHeight dpy)
                           (x_org s) (y_org s) (xi_width s) (xi_height s));
                 out screens rc)))
  /\ head_of "HEAD-0" = 0.
Proof.
  intros Hext Hnul screens infos nscreens run. split; [|split; [|done]].
  - intros Hbad. subst run. rewrite (rejected_name _ _ _ _ Hext Hnul Hbad).
    apply fails_with_stderr.
  - intros Hp Hl. subst run.
    rewrite (accepted_name _ _ _ _ Hext Hnul Hp Hl).
    fold infos nscreens screens. split; [|split; [|split]].
    + intros c Hc. unfold head_of. by rewrite (char_at_get _ _ _ Hc).
    + intros Hz. destruct (Z.eqb_spec nscreens 0); [|done].
      apply fails_with_stderr.
    + intros Hnz Hle. destruct (Z.eqb_spec nscreens 0); [done|].
      destruct (Z.leb_spec nscreens (head_of output_name)); [|lia].
      apply fails_with_stderr.
    + intros s Hs. pose proof (index_Some _ _ _ Hs) as Hr. fold nscreens in Hr.
      destruct (Z.eqb_spec nscreens 0); [lia|].
      destruct (Z.leb_spec nscreens (head_of output_name)); [lia|].
      by rewrite Hs, bind_lift_Some.
Qed.

Lemma xinerama_name_and_range_witness :
  fails_with (map_crtc_xinerama randr_display 5 "HEAD-3" []) (msg_range 2 "HEAD-3").
Proof.
  destruct (xinerama_name_and_range randr_display 5 "HEAD-3" [] eq_refl eq_refl)
    as (_ & Hvalid & _).
  destruct (Hvalid eq_refl ltac:(simpl; lia)) as (_ & _ & Hrange & _).
  apply Hrange; [done|]. vm_compute. discriminate.
Defined.

(** The two malformed names of the specification. *)
Lemma xinerama_rejects_HEAD_and_FOO (dpy : Display) (deviceid : Z) (m0 : Matrix) :
  XineramaQueryExtension dpy = true ->
  fails_with (map_crtc_xinerama dpy deviceid "HEAD" m0) msg_head
  /\ fails_with (map_crtc_xinerama dpy deviceid "FOO-1" m0) msg_head.
Proof.
  intros Hext. split.
  - rewrite (rejected_name dpy deviceid "HEAD" m0 Hext eq_refl);
      [apply fails_with_stderr|].
    right. simpl. lia.
  - rewrite (rejected_name dpy deviceid "FOO-1" m0 Hext eq_refl);
      [apply fails_with_stderr|].
    by left.
Qed.

(** A well-formed name whose character after the prefix comes before
    '0' passes both tests on the number of screens and reads before
    the first screen. *)
Lemma xinerama_index_unchecked_below (dpy : Display) (deviceid : Z)
    (output_name : string) (m0 : Matrix) :
  XineramaQueryExtension dpy = true ->
  nul_free output_name = true ->
  String.prefix "HEAD-" output_name = true -> (6 <= String.length output_name)%nat ->
  (XineramaQueryScreens dpy).2 <> [] ->
  head_of output_name < 0 ->
  map_crtc_xinerama dpy deviceid output_name m0 = ([], None).
Proof.
  intros Hext Hnul Hp Hl Hne Hneg.
  rewrite (accepted_name _ _ _ _ Hext Hnul Hp Hl).
  destruct (XineramaQueryScreens dpy).2 as [|s l] eqn:Hs; [done|].
  destruct (Z.eqb_spec (Z.of_nat (length (s :: l))) 0) as [H0|_]; [done|].
  destruct (Z.leb_spec (Z.of_nat (length (s :: l))) (head_of output_name)); [lia|].
  by rewrite index_negative.
Qed.

(** C9.  The name "HEAD-/" has the required form, yet its index is -1:
    with one screen reported the resolver passes the test on the form
    of the name and both tests on the number of screens, and reads
    [screens[-1]], outside the screen list. *)
Theorem xinerama_index_out_of_bounds :
  let dpy := sample_display [] None (reply_of 9) [left_screen] in
  String.prefix "HEAD-" "HEAD-/" = true
  /\ String.length "HEAD-/" = 6%nat
  /\ head_of "HEAD-/" = -1
  /\ index (XineramaQueryScreens dpy).2 (head_of "HEAD-/") = None
  /\ map_crtc_xinerama dpy 5 "HEAD-/" [] = ([], None).
Proof. by repeat split. Qed.

(** * The RandR resolver *)

Lemma int_of_uint_small (u : Z) : 0 <= u <= INT_MAX -> int_of_uint u = u.
Proof.
  unfold int_of_uint, int_wrap, INT_MAX. intros Hu.
  change (2 ^ 31) with 2147483648. change (2 ^ 32) with 4294967296.
  rewrite Z.mod_small; lia.
Qed.

Lemma int_of_uint_range (u : Z) : int_range (int_of_uint u).
Proof.
  unfold int_of_uint, int_wrap, int_range, INT_MIN, INT_MAX.
  change (2 ^ 31) with 2147483648. change (2 ^ 32) with 4294967296.
  pose proof (Z.mod_pos_bound (u + 2147483648) 4294967296 ltac:(lia)). lia.
Qed.

(** With both atoms and a well-formed property on the device the
    applier sends the write and releases the buffer; otherwise it
    prints one line and fails. *)
Lemma apply_matrix_ready (dpy : Display) (deviceid : Z) (m : Matrix) :
  property_ready dpy deviceid ->
  apply_matrix dpy deviceid m
  = ([matrix_write dpy deviceid m; Free (data (property_reply dpy deviceid))],
     Some EXIT_SUCCESS).
Proof.
  unfold property_ready, property_reply. intros (Hf & Hm & Hwf%property_ok_spec).
  destruct (apply_matrix_cases dpy deviceid m)
    as [(? & _)|[(_ & ? & _)|[(_ & _ & ? & _)|(_ & _ & _ & ->)]]];
    [done|done|congruence|done].
Qed.

Lemma apply_matrix_not_ready (dpy : Display) (deviceid : Z) (m : Matrix) :
  ~ property_ready dpy deviceid ->
  exists message, apply_matrix dpy deviceid m = ([Stderr message], Some EXIT_FAILURE).
Proof.
  unfold property_ready, property_reply. intros Hno.
  destruct (apply_matrix_cases dpy deviceid m)
    as [(_ & ->)|[(_ & _ & ->)|[(_ & _ & _ & ->)|(Hf & Hm & Hok%property_ok_spec & _)]]];
    [by eexists..|].
  by destruct Hno.
Qed.

Section RandRResolver.

Variable dpy : Display.
Variable output_name : string.

Lemma candidate_spec (info : XRROutputInfo) :
  (crtc info =? 0) || negb (connection info =? RR_Connected) = false
  <-> candidate info.
Proof.
  unfold candidate.
  by rewrite orb_false_iff, negb_false_iff, Z.eqb_neq, Z.eqb_eq.
Qed.

(** On C strings the comparison of the program is equality. *)
Lemma compares_equal_matches (info : XRROutputInfo) :
  nul_free output_name = true -> nul_free (name info) = true ->
  compares_equal output_name info <-> matches output_name info.
Proof.
  intros Hreq Hname. unfold compares_equal, matches.
  by rewrite (strcmp_eq _ _ Hname Hreq).
Qed.

(** The scan passes over the outputs the server describes that are
    not the one looked for. *)
Lemma scan_outputs_skip (skipped rest : list XID) (crtc_info : option XRRCrtcInfo) :
  (forall o, In o skipped ->
     exists info, XRRGetOutputInfo dpy o = Some info
                  /\ ~ compares_equal output_name info) ->
  exists crtc_info',
    scan_outputs dpy output_name (skipped ++ rest) crtc_info
    = scan_outputs dpy output_name rest crtc_info'.
Proof.
  revert crtc_info. induction skipped as [|o skipped IH]; intros crtc_info Hno.
  - by exists crtc_info.
  - destruct (Hno o) as (info & Hinfo & Hne); [by left|].
    simpl. rewrite Hinfo.
    destruct (_ || _) eqn:Hc.
    + apply IH. intros; apply Hno; by right.
    + destruct (Z.eqb_spec (strcmp (name info) output_name) 0) as [Heq|_].
      * exfalso. apply Hne. split; [by apply candidate_spec|done].
      * apply IH. intros; apply Hno; by right.
Qed.

(** It stops at the first output that is, with what the server
    returned for the geometry of its CRTC. *)
Lemma scan_outputs_stop (o : XID) (rest : list XID) (crtc_info : option XRRCrtcInfo)
    (info : XRROutputInfo) :
  XRRGetOutputInfo dpy o = Some info -> compares_equal output_name info ->
  scan_outputs dpy output_name (o :: rest) crtc_info
  = Some (true, XRRGetCrtcInfo dpy (crtc info)).
Proof.
  intros Hinfo [Hc Hname]. simpl. rewrite Hinfo.
  apply candidate_spec in Hc. rewrite Hc, Hname. reflexivity.
Qed.

Lemma scan_outputs_end (crtc_info : option XRRCrtcInfo) :
  scan_outputs dpy output_name [] crtc_info = Some (false, crtc_info).
Proof. reflexivity. Qed.

(** When the scan ends with [found] set, it has stopped at the first
    output that is the one looked for, and [crtc_info] holds what the
    server returned for the CRTC of that output: [found] is never set
    without a store into [crtc_info] in the same iteration. *)
Lemma scan_outputs_found (outs : list XID) (crtc_info crtc_info' : option XRRCrtcInfo) :
  scan_outputs dpy output_name outs crtc_info = Some (true, crtc_info') ->
  exists skipped o rest info,
    outs = skipped ++ o :: rest
    /\ (forall o', In o' skipped ->
          exists info', XRRGetOutputInfo dpy o' = Some info'
                        /\ ~ compares_equal output_name info')
    /\ XRRGetOutputInfo dpy o = Some info
    /\ compares_equal output_name info
    /\ crtc_info' = XRRGetCrtcInfo dpy (crtc info).
Proof.
  revert crtc_info. induction outs as [|o outs IH]; intros crtc_info; [done|].
  simpl. destruct (XRRGetOutputInfo dpy o) as [info|] eqn:Hinfo; [|done].
  assert (forall ci, scan_outputs dpy output_name outs ci = Some (true, crtc_info') ->
                     ~ compares_equal output_name info ->
                     exists skipped o0 rest info0,
                       o :: outs = skipped ++ o0 :: rest
                       /\ (forall o', In o' skipped ->
                             exists info', XRRGetOutputInfo dpy o' = Some info'
                                           /\ ~ compares_equal output_name info')
                       /\ XRRGetOutputInfo dpy o0 = Some info0
                       /\ compares_equal output_name info0
                       /\ crtc_info' = XRRGetCrtcInfo dpy (crtc info0)) as Hnext.
  { intros ci (skipped & o0 & rest & info0 & -> & Hskip & H0 & Hm & Hci)%IH Hne.
    exists (o :: skipped), o0, rest, info0. split; [done|]. split; [|done].
    intros o' [<-|Hin]; [by exists info|by apply Hskip]. }
  destruct (_ || _) eqn:Hc.
  - intros H. apply (Hnext _ H). intros [Hcand _]. apply candidate_spec in Hcand.
    congruence.
  - destruct (Z.eqb_spec (strcmp (name info) output_name) 0) as [Heq|Hne].
    + intros [= <-]. exists [], o, outs, info. split; [done|]. split; [by intros ? []|].
      split; [done|]. split; [|done]. split; [by apply candidate_spec|done].
    + intros H. apply (Hnext _ H). by intros [_ ?].
Qed.

(** The scan is undefined only at an output the server does not
    describe. *)
Lemma scan_outputs_undefined (outs : list XID) (crtc_info : option XRRCrtcInfo) :
  scan_outputs dpy output_name outs crtc_info = None ->
  exists o, In o outs /\ XRRGetOutputInfo dpy o = None.
Proof.
  revert crtc_info. induction outs as [|o outs IH]; intros crtc_info; [done|].
  simpl. destruct (XRRGetOutputInfo dpy o) as [info|] eqn:Hinfo.
  2:{ intros _. exists o. split; [by left|done]. }
  destruct (_ || _).
  - intros (o' & Hin & H)%IH. exists o'. split; [by right|done].
  - destruct (_ =? 0); [done|].
    intros (o' & Hin & H)%IH. exists o'. split; [by right|done].
Qed.

(** A resolved rectangle is built and applied, and the resources are
    released. *)
Lemma map_crtc_xrandr_resolved (deviceid : Z) (m0 : Matrix) (r : Z * Z * Z * Z) :
  resolved_rectangle dpy RandR output_name r ->
  exists res,
    XRRGetScreenResources dpy = Some res
    /\ map_crtc_xrandr dpy deviceid output_name m0
       = (rc ← apply_matrix dpy deviceid
                 (rect_matrix (DisplayWidth dpy) (DisplayHeight dpy) r.1.1.1 r.1.1.2 r.1.2 r.2);
          emit (FreeScreenResources (handle res));;
          mret rc).
Proof.
  intros (res & skipped & o & rest & info & c & Hres & Hsplit & Hskip & Hinfo & Hm & Hc & ->).
  exists res. split; [done|].
  unfold map_crtc_xrandr. rewrite Hres, bind_lift_Some, Hsplit.
  destruct (scan_outputs_skip skipped (o :: rest) None Hskip) as [crtc_info' ->].
  rewrite (scan_outputs_stop o rest crtc_info' info Hinfo Hm), bind_lift_Some, Hc.
  rewrite matrix_set_unity_identity, !bind_lift_Some.
  rewrite set_transformation_matrix_rect, bind_lift_Some.
  reflexivity.
Qed.

(** Without an output to find, among outputs the server describes,
    the resolver prints its line on standard output. *)
Lemma map_crtc_xrandr_not_found (deviceid : Z) (m0 : Matrix) (res : XRRScreenResources) :
  XRRGetScreenResources dpy = Some res ->
  (forall o, In o (outputs res) ->
     exists info, XRRGetOutputInfo dpy o = Some info
                  /\ ~ compares_equal output_name info) ->
  map_crtc_xrandr dpy deviceid output_name m0
  = ([Stdout (msg_no_output output_name); FreeScreenResources (handle res)],
     Some EXIT_FAILURE).
Proof.
  intros Hres Hnone. unfold map_crtc_xrandr. rewrite Hres, bind_lift_Some.
  destruct (scan_outputs_skip (outputs res) [] None Hnone) as [crtc_info' Hscan].
  rewrite app_nil_r in Hscan. rewrite Hscan, scan_outputs_end, bind_lift_Some.
  reflexivity.
Qed.

End RandRResolver.

(** C5.  The server returned the screen resources.  The RandR
    resolver goes through the outputs in the order the server returned
    them, passes over every output that has no CRTC, is not connected
    or has another name, and stops at the first connected output with
    a CRTC whose name equals the requested one.  On a display of
    positive width [W] and height [H] the matrix it then builds from
    the rectangle (x, y, width, height) of that output's CRTC (two
    [int]s and two [unsigned int]s that fit an [int]) has width / W,
    height / H, x / W and y / H in its entries (0,0), (1,1), (0,2) and
    (1,2), each the quotient of the two integers computed in double
    precision and stored in a [float], a number within one part in
    [2^21] of the rational quotient, and 0 0 1 in its bottom row; when
    the server knows both atoms and holds a well-formed matrix
    property for the device, the resolver sends exactly this matrix
    in one property write, releases the buffer and the resources and
    returns success, and otherwise it prints one line on standard
    error, releases the resources and returns failure.  When no
    output matches, the resolver prints "Unable to find output ...",
    releases the resources and returns failure, and no property write
    is sent. *)
Theorem randr_scan (dpy : Display) (deviceid : Z) (output_name : string) (m0 : Matrix)
    (res : XRRScreenResources) :
  let W := DisplayWidth dpy in
  let H := DisplayHeight dpy in
  let run := map_crtc_xrandr dpy deviceid output_name m0 in
  nul_free output_name = true ->
  XRRGetScreenResources dpy = Some res ->
  (forall skipped o rest info c,
      outputs res = skipped ++ o :: rest ->
      (forall o', In o' skipped ->
         exists info', XRRGetOutputInfo dpy o' = Some info'
                       /\ nul_free (name info') = true
                       /\ ~ matches output_name info') ->
      XRRGetOutputInfo dpy o = Some info ->
      matches output_name info ->
      XRRGetCrtcInfo dpy (crtc info) = Some c ->
      0 < W <= INT_MAX -> 0 < H <= INT_MAX ->
      int_range (x c) -> int_range (y c) ->
      0 <= width c <= INT_MAX -> 0 <= height c <= INT_MAX ->
      let m := [ FP.quotient (width c) W; FP.float_zero; FP.quotient (x c) W;
                 FP.float_zero; FP.quotient (height c) H; FP.quotient (y c) H;
                 FP.float_zero; FP.float_zero; FP.float_one ] in
      Forall (fun f => FP.finite f = true) m
      /\ FP.close_to (FP.quotient (width c) W) (width c) W
      /\ FP.close_to (FP.quotient (height c) H) (height c) H
      /\ FP.close_to (FP.quotient (x c) W) (x c) W
      /\ FP.close_to (FP.quotient (y c) H) (y c) H
      /\ (property_ready dpy deviceid ->
          run = ([ChangeProperty deviceid (XInternAtom dpy MATRIX false)
                    (XInternAtom dpy FLOAT false) 32 PropModeReplace m 9;
                  Free (data (property_reply dpy deviceid));
                  FreeScreenResources (handle res)],
                 Some EXIT_SUCCESS))
      /\ (~ property_ready dpy deviceid ->
          exists message,
            run = ([Stderr message; FreeScreenResources (handle res)],
                   Some EXIT_FAILURE)))
  /\ ((forall o, In o (outputs res) ->
         exists info, XRRGetOutputInfo dpy o = Some info
                      /\ nul_free (name info) = true
                      /\ ~ matches output_name info) ->
      run = ([Stdout (msg_no_output output_name); FreeScreenResources (handle res)],
             Some EXIT_FAILURE)
      /\ writes run.1 = []).
Proof.
  intros W H run Hreq Hres. subst run.
  assert (forall outs,
            (forall o, In o outs ->
               exists info, XRRGetOutputInfo dpy o = Some info
                            /\ nul_free (name info) = true
                            /\ ~ matches output_name info) ->
            forall o, In o outs ->
              exists info, XRRGetOutputInfo dpy o = Some info
                           /\ ~ compares_equal output_name info) as Hother.
  { intros outs Hall o (info & Hinfo & Hnul & Hne)%Hall. exists info. split; [done|].
    by rewrite (compares_equal_matches output_name info Hreq Hnul). }
  split.
  - intros skipped o rest info c Hsplit Hskip Hinfo Hmatch Hc HW HH Hx Hy Hw Hh m.
    assert (int_range (width c) /\ int_range (height c)) as [Hw' Hh']
      by (unfold int_range, INT_MIN, INT_MAX in *; lia).
    split; [by repeat constructor; try apply quotient_finite|].
    do 4 (split; [by apply quotient_close|]).
    assert (nul_free (name info) = true) as Hnul
      by (destruct Hmatch as [_ ->]; done).
    destruct (map_crtc_xrandr_resolved dpy output_name deviceid m0
                (x c, y c, int_of_uint (width c), int_of_uint (height c)))
      as (res' & Hres' & ->).
    { exists res, skipped, o, rest, info, c. repeat (split; [done|]).
      split; [by apply Hother|]. split; [done|]. split; [|done].
      by apply compares_equal_matches. }
    assert (res' = res) as -> by congruence.
    cbn [fst snd]. rewrite !int_of_uint_small by done.
    unfold rect_matrix. fold W H. rewrite !ratio_quotient by done. fold m.
    split.
    + intros Hready. by rewrite (apply_matrix_ready _ _ _ Hready).
    + intros Hno. destruct (apply_matrix_not_ready dpy deviceid m Hno) as [msg ->].
      by exists msg.
  - intros Hnone.
    rewrite (map_crtc_xrandr_not_found dpy output_name deviceid m0 res Hres
               (Hother _ Hnone)).
    done.
Qed.

Lemma randr_scan_witness :
  map_crtc_xrandr randr_display 5 "HDMI-1" []
  = ([ChangeProperty 5 matrix_atom float_atom 32 PropModeReplace
        [ FP.quotient 960 1920; FP.float_zero; FP.quotient 960 1920;
          FP.float_zero; FP.quotient 1080 1080; FP.quotient 0 1080;
          FP.float_zero; FP.float_zero; FP.float_one ] 9;
      Free 4096; FreeScreenResources 8192],
     Some EXIT_SUCCESS).
Proof.
  destruct (randr_scan randr_display 5 "HDMI-1" []
              {| handle := 8192; outputs := [61; 62; 63] |} eq_refl eq_refl)
    as [Hfound _].
  pose (info := {| crtc := 73; connection := RR_Connected; name := "HDMI-1" |}).
  pose (c := {| x := 960; y := 0; width := 960; height := 1080 |}).
  destruct (Hfound [61; 62] 63 [] info c) as (_ & _ & _ & _ & _ & Hready & _).
  - reflexivity.
  - intros o' [<-|[<-|[]]]; eexists; (split; [reflexivity|]);
      (split; [reflexivity|]); intros [_ Hname]; discriminate Hname.
  - reflexivity.
  - by repeat split.
  - reflexivity.
  - unfold INT_MAX; simpl; lia.
  - unfold INT_MAX; simpl; lia.
  - unfold int_range, INT_MIN, INT_MAX; simpl; lia.
  - unfold int_range, INT_MIN, INT_MAX; simpl; lia.
  - unfold INT_MAX; simpl; lia.
  - unfold INT_MAX; simpl; lia.
  - apply Hready. repeat split; done.
Defined.

(** * The dispatcher *)

Section Dispatcher.

Variable dpy : Display.

Lemma int_wrap_small (z : Z) : - 2 ^ 31 <= z < 2 ^ 31 -> int_wrap z = z.
Proof. intros Hz. unfold int_wrap. rewrite Z.mod_small; lia. Qed.

(** Within the plain versions the encoding [maj * 1000 + min] orders
    versions as major and minor number do. *)
Lemma version_encoding (maj min : Z) :
  0 <= min < 1000 -> -2147483 <= maj <= 2147482 ->
  (int_add (int_mul maj 1000) min <? 1002) = true <-> version_below maj min 1 2.
Proof.
  intros Hmin Hmaj. unfold int_add, int_mul, version_below.
  rewrite (int_wrap_small (maj * 1000)) by lia.
  rewrite int_wrap_small by lia.
  rewrite Z.ltb_lt. lia.
Qed.

Lemma select_backend_cases :
  select_backend dpy = Xinerama \/ select_backend dpy = RandR.
Proof. destruct (select_backend dpy); [by left|by right]. Qed.

Lemma select_xinerama :
  plain_version dpy ->
  select_backend dpy = Xinerama <-> xinerama_policy_amended dpy.
Proof.
  intros Hplain. unfold select_backend, xinerama_policy_amended.
  destruct (XQueryExtension dpy "NV-CONTROL"); [by split; [left|]|].
  destruct (XQueryExtension dpy "RANDR"); [|by split; [right; left|]].
  destruct (XRRQueryVersion dpy) as [[maj min]|] eqn:Hv;
    [|by split; [right; right; left|]].
  destruct (Hplain maj min Hv) as [Hmin Hmaj]. simpl.
  pose proof (version_encoding maj min Hmin Hmaj) as Henc.
  destruct (_ <? 1002).
  - split; [|done]. intros _. right; right; right. exists maj, min. by rewrite <- Henc.
  - split; [done|]. intros [?|[?|[?|(maj' & min' & [= <- <-] & Hb)]]]; try done.
    apply Henc in Hb. done.
Qed.

(** With two arguments and a known device the dispatcher is the
    resolver it selected, run on the device and the second argument. *)
Lemma map_to_crtc_resolver (argc : Z) (arg0 crtc_name : string) (rest : list string)
    (name desc : string) (m0 : Matrix) (info : XIDeviceInfo) :
  2 <= argc ->
  xi2_find_device_info dpy arg0 = Some info ->
  map_to_crtc dpy argc (arg0 :: crtc_name :: rest) name desc m0
  = resolver (select_backend dpy) dpy (deviceid info) crtc_name m0.
Proof.
  intros Hargc Hinfo. unfold map_to_crtc.
  destruct (Z.ltb_spec argc 2); [lia|].
  change (index (arg0 :: crtc_name :: rest) 0) with (Some arg0).
  rewrite bind_lift_Some, Hinfo.
  change (index (arg0 :: crtc_name :: rest) 1) with (Some crtc_name).
  by rewrite bind_lift_Some.
Qed.

End Dispatcher.

(** C3, as the program has it.  Whatever extensions the server has,
    and whether the RandR version query fails or reports a version
    whose minor number is below 1000 (and whose major number is small
    enough for [maj * 1000 + min] to fit an [int]): the dispatcher
    selects the Xinerama resolver if and only if NV-CONTROL is present,
    or RANDR is absent, or the version query fails, or the reported
    version is below 1.2; it selects the RandR resolver if and only if
    NV-CONTROL is absent, RANDR is present and the reported version is
    1.2 or higher; and it runs the resolver it selected. *)
Theorem backend_selection (dpy : Display) :
  plain_version dpy ->
  (select_backend dpy = Xinerama <-> xinerama_policy_amended dpy)
  /\ (select_backend dpy = RandR <->
      XQueryExtension dpy "NV-CONTROL" = false
      /\ XQueryExtension dpy "RANDR" = true
      /\ exists maj min, XRRQueryVersion dpy = Some (maj, min)
                         /\ ~ version_below maj min 1 2)
  /\ (forall argc arg0 crtc_name rest name desc m0 info,
      2 <= argc -> xi2_find_device_info dpy arg0 = Some info ->
      map_to_crtc dpy argc (arg0 :: crtc_name :: rest) name desc m0
      = resolver (select_backend dpy) dpy (deviceid info) crtc_name m0).
Proof.
  intros Hplain. pose proof (select_xinerama dpy Hplain) as Hx.
  split; [done|]. split; [|intros; by apply map_to_crtc_resolver].
  unfold xinerama_policy_amended in Hx.
  destruct (select_backend_cases dpy) as [Hs|Hs]; rewrite Hs in *.
  - split; [done|]. intros (Hnv & Hrandr & maj & min & Hv & Hnot).
    destruct Hx as [Hx _].
    destruct (Hx eq_refl) as [?|[?|[?|(maj' & min' & Hv' & Hb)]]]; congruence.
  - split; [intros _|done].
    destruct (XQueryExtension dpy "NV-CONTROL") eqn:Hnv.
    { destruct Hx as [_ Hx]. by discriminate Hx; left. }
    destruct (XQueryExtension dpy "RANDR") eqn:Hrandr.
    2:{ destruct Hx as [_ Hx]. by discriminate Hx; right; left. }
    destruct (XRRQueryVersion dpy) as [[maj min]|] eqn:Hv.
    2:{ destruct Hx as [_ Hx]. by discriminate Hx; right; right; left. }
    repeat split. exists maj, min. split; [done|]. intros Hb.
    destruct Hx as [_ Hx]. discriminate Hx. right; right; right. by exists maj, min.
Qed.

Lemma backend_selection_witness :
  select_backend randr_display = RandR.
Proof.
  assert (plain_version randr_display) as Hplain.
  { intros maj min [= <- <-]. lia. }
  destruct (backend_selection randr_display Hplain) as (_ & [_ Hrandr] & _).
  apply Hrandr. repeat split. exists 1, 3. split; [done|].
  unfold version_below. lia.
Defined.

(** C3, as the specification words it, fails on two servers that both
    have RANDR and no NV-CONTROL.  On the first the version query
    fails: no version is reported, so none of the three conditions
    holds, and Xinerama is selected.  The second reports version
    0.1002, which is below 1.2, and RandR is selected. *)
Lemma backend_selection_counterexample :
  let failed_query := sample_display ["RANDR"%string] None (reply_of 9) [] in
  let odd_version := sample_display ["RANDR"%string] (Some (0, 1002)) (reply_of 9) [] in
  ~ (select_backend failed_query = Xinerama <-> xinerama_policy failed_query)
  /\ ~ (select_backend odd_version = Xinerama <-> xinerama_policy odd_version).
Proof.
  split.
  - intros [H _]. destruct (H eq_refl) as [?|[?|(maj & min & ? & _)]]; discriminate.
  - intros [_ H]. discriminate H. right; right. exists 0, 1002. split; [done|].
    unfold version_below. lia.
Qed.

(** * Releases *)

(** On the path that writes the property the buffer of the read is
    released once. *)
Lemma buffer_freed_after_write (dpy : Display) (deviceid : Z) (m : Matrix) :
  let prop_float := XInternAtom dpy FLOAT false in
  let prop_matrix := XInternAtom dpy MATRIX false in
  let reply := XIGetProperty dpy deviceid prop_matrix 0 9 false prop_float in
  (apply_matrix dpy deviceid m).2 = Some EXIT_SUCCESS ->
  times_freed (data reply) (apply_matrix dpy deviceid m).1 = 1%nat.
Proof.
  intros prop_float prop_matrix reply.
  destruct (apply_matrix_cases dpy deviceid m)
    as [(_ & ->)|[(_ & _ & ->)|[(_ & _ & _ & ->)|(_ & _ & _ & ->)]]]; try done.
  intros _. unfold times_freed. simpl. by rewrite Z.eqb_refl.
Qed.

(** On every other path nothing is released at all, whatever the read
    handed out. *)
Lemma nothing_freed_on_failure (dpy : Display) (deviceid : Z) (m : Matrix) (p : pointer) :
  (apply_matrix dpy deviceid m).2 <> Some EXIT_SUCCESS ->
  times_freed p (apply_matrix dpy deviceid m).1 = 0%nat.
Proof.
  destruct (apply_matrix_cases dpy deviceid m)
    as [(_ & ->)|[(_ & _ & ->)|[(_ & _ & _ & ->)|(_ & _ & _ & ->)]]]; done.
Qed.

(** C7.  A device whose matrix property holds 8 floats: the read
    succeeds and hands out a buffer (at address 4096), the count is
    not 9, and the applier returns failure without releasing the
    buffer: it is freed zero times, not once. *)
Theorem property_buffer_not_freed :
  let dpy := sample_display ["RANDR"%string] (Some (1, 3)) (reply_of 8) [] in
  let reply := XIGetProperty dpy 5 matrix_atom 0 9 false float_atom in
  let run := apply_matrix dpy 5 identity_matrix in
  rc reply = Success /\ nitems reply = 8 /\ data reply = 4096
  /\ run = ([Stderr msg_property], Some EXIT_FAILURE)
  /\ times_freed (data reply) run.1 = 0%nat.
Proof. by repeat split. Qed.

(** * Diagnostics *)

Section Diagnostics.

Variable dpy : Display.
Variable m0 : Matrix.

Lemma apply_matrix_then (deviceid : Z) (m : Matrix) (k : Z -> Run Z) (t : list event) :
  (forall rc, exists e, k rc = ([e], Some rc)) ->
  (rc ← apply_matrix dpy deviceid m; k rc) = (t, Some EXIT_FAILURE) ->
  exists message, In (Stderr message) t.
Proof.
  intros Hk.
  destruct (apply_matrix_cases dpy deviceid m)
    as [(_ & ->)|[(_ & _ & ->)|[(_ & _ & _ & ->)|(_ & _ & _ & ->)]]].
  4:{ destruct (Hk EXIT_SUCCESS) as [e He]. cbn [mbind Run_bind]. rewrite He.
      by intros [= _ ?]. }
  all: destruct (Hk EXIT_FAILURE) as [e He]; cbn [mbind Run_bind]; rewrite He.
  all: intros [= <-]; eexists; by left.
Qed.

(** Every failure of the Xinerama resolver is reported on standard error. *)
Lemma xinerama_failure_reported (deviceid : Z) (output_name : string) (t : list event) :
  map_crtc_xinerama dpy deviceid output_name m0 = (t, Some EXIT_FAILURE) ->
  exists message, In (Stderr message) t.
Proof.
  unfold map_crtc_xinerama.
  destruct (negb _); [intros [= <-]; eexists; by left|].
  destruct (_ || _); [intros [= <-]; eexists; by left|].
  destruct (XineramaQueryScreens dpy) as [p l].
  destruct (_ =? 0); [intros [= <-]; eexists; by left|].
  destruct (_ <=? _); [intros [= <-]; eexists; by left|].
  rewrite matrix_set_unity_identity, bind_lift_Some.
  destruct (index l _) as [s|]; [|done].
  rewrite bind_lift_Some, set_transformation_matrix_rect, bind_lift_Some.
  apply apply_matrix_then. intros rc. by eexists.
Qed.

(** A failure of the RandR resolver is reported on standard error
    unless it is the failure to find the output, which is reported on
    standard output alone. *)
Lemma randr_failure_reported (deviceid : Z) (output_name : string) (t : list event) :
  map_crtc_xrandr dpy deviceid output_name m0 = (t, Some EXIT_FAILURE) ->
  (exists message, In (Stderr message) t)
  \/ exists res, XRRGetScreenResources dpy = Some res
       /\ t = [Stdout (msg_no_output output_name); FreeScreenResources (handle res)].
Proof.
  unfold map_crtc_xrandr.
  destruct (XRRGetScreenResources dpy) as [res|]; [|done]. rewrite bind_lift_Some.
  destruct (scan_outputs _ _ _ _) as [[[|] crtc_info]|]; [| |done];
    rewrite bind_lift_Some; [|intros [= <-]; right; by exists res].
  rewrite matrix_set_unity_identity, bind_lift_Some.
  destruct crtc_info as [c|]; [|done].
  rewrite bind_lift_Some, set_transformation_matrix_rect, bind_lift_Some.
  intros H. left. revert H. apply apply_matrix_then. intros rc. by eexists.
Qed.

(** Every failure of the dispatcher is reported on standard error,
    save the one of the RandR resolver. *)
Lemma failure_reported (argc : Z) (argv : list string) (name desc : string)
    (t : list event) :
  map_to_crtc dpy argc argv name desc m0 = (t, Some EXIT_FAILURE) ->
  (exists message, In (Stderr message) t)
  \/ (select_backend dpy = RandR
      /\ exists output_name res,
           XRRGetScreenResources dpy = Some res
           /\ t = [Stdout (msg_no_output output_name);
                   FreeScreenResources (handle res)]).
Proof.
  unfold map_to_crtc.
  destruct (argc <? 2); [intros [= <-]; left; eexists; by left|].
  destruct (index argv 0) as [arg0|]; [|done]. rewrite bind_lift_Some.
  destruct (xi2_find_device_info dpy arg0) as [info|];
    [|intros [= <-]; left; eexists; by left].
  destruct (index argv 1) as [crtc_name|]; [|done]. rewrite bind_lift_Some.
  destruct (select_backend dpy); simpl resolver.
  - intros H. left. by apply xinerama_failure_reported in H.
  - intros [H|(res & Hres & ->)]%randr_failure_reported; [by left|right].
    split; [done|]. by eexists _, res.
Qed.

End Diagnostics.

(** C8.  The device is known, RandR 1.3 is selected and no connected
    output is called "HDMI-2": the dispatcher returns failure, its
    diagnostic went to standard output and nothing was written to
    standard error. *)
Theorem output_not_found_on_stdout :
  let run := map_to_crtc randr_display 2 ["tablet"; "HDMI-2"]%string
               "map-to-output" "<device> <output name>" [] in
  select_backend randr_display = RandR
  /\ run = ([Stdout (msg_no_output "HDMI-2"); FreeScreenResources 8192],
            Some EXIT_FAILURE)
  /\ diagnostics run.1 = [].
Proof. by repeat split. Qed.

(** * Outcomes of the resolvers and of the dispatcher *)

Section Outcomes.

Variable dpy : Display.

(** [apply_matrix] followed by one release: one diagnostic and the
    release, or the write, the release of the buffer and the release. *)
Lemma apply_matrix_release (deviceid : Z) (m : Matrix) (e : event) :
  let run := rc ← apply_matrix dpy deviceid m; emit e;; mret rc in
  (exists message, run = ([Stderr message; e], Some EXIT_FAILURE))
  \/ (property_ready dpy deviceid
      /\ run = ([matrix_write dpy deviceid m; Free (data (property_reply dpy deviceid)); e],
                Some EXIT_SUCCESS)).
Proof.
  cbv zeta.
  destruct (apply_matrix_cases dpy deviceid m)
    as [(_ & ->)|[(_ & _ & ->)|[(_ & _ & _ & ->)|(Hf & Hm & Hok & ->)]]].
  1-3: left; by eexists.
  right. split; [|done]. split; [done|]. split; [done|]. by apply property_ok_spec.
Qed.

Lemma index_None {A : Type} (l : list A) (i : Z) :
  index l i = None -> i < 0 \/ Z.of_nat (length l) <= i.
Proof.
  unfold index. destruct (Z.ltb_spec i 0); [by left|].
  intros Hl%lookup_ge_None. right. lia.
Qed.

Lemma index_in_range {A : Type} (l : list A) (i : Z) :
  0 <= i < Z.of_nat (length l) -> exists a, index l i = Some a.
Proof.
  intros Hi. unfold index. destruct (Z.ltb_spec i 0); [lia|].
  apply lookup_lt_is_Some. lia.
Qed.

(** The ways through [map_crtc_xrandr]. *)
Lemma map_crtc_xrandr_outcomes (deviceid : Z) (output_name : string) (m0 : Matrix) :
  let run := map_crtc_xrandr dpy deviceid output_name m0 in
  (run = ([], None) /\ randr_null dpy output_name)
  \/ (exists res,
        XRRGetScreenResources dpy = Some res
        /\ run = ([Stdout (msg_no_output output_name); FreeScreenResources (handle res)],
                  Some EXIT_FAILURE))
  \/ exists r res,
       XRRGetScreenResources dpy = Some res
       /\ resolved_rectangle dpy RandR output_name r
       /\ let '(x, y, w, h) := r in
          let m := rect_matrix (DisplayWidth dpy) (DisplayHeight dpy) x y w h in
          let last := FreeScreenResources (handle res) in
          (exists message, run = ([Stderr message; last], Some EXIT_FAILURE))
          \/ (property_ready dpy deviceid
              /\ run = ([matrix_write dpy deviceid m;
                         Free (data (property_reply dpy deviceid)); last],
                        Some EXIT_SUCCESS)).
Proof.
  cbv zeta.
  destruct (XRRGetScreenResources dpy) as [res|] eqn:Hres.
  2:{ left. split; [|by left]. unfold map_crtc_xrandr. by rewrite Hres. }
  destruct (scan_outputs dpy output_name (outputs res) None) as [[[|] crtc_info]|] eqn:Hscan.
  - pose proof Hscan as Hscan'.
    apply scan_outputs_found in Hscan'
      as (skipped & o & rest & info & Hsplit & Hskip & Hinfo & Hm & ->).
    destruct (XRRGetCrtcInfo dpy (crtc info)) as [c|] eqn:Hc.
    + right; right.
      exists (x c, y c, int_of_uint (width c), int_of_uint (height c)), res.
      assert (resolved_rectangle dpy RandR output_name
                (x c, y c, int_of_uint (width c), int_of_uint (height c))) as Hr
        by (by exists res, skipped, o, rest, info, c).
      split; [done|]. split; [done|].
      destruct (map_crtc_xrandr_resolved dpy output_name deviceid m0 _ Hr)
        as (res' & Hres' & ->).
      assert (res' = res) as -> by congruence.
      apply apply_matrix_release.
    + left. split.
      * unfold map_crtc_xrandr.
        by rewrite Hres, bind_lift_Some, Hscan, bind_lift_Some, matrix_set_unity_identity.
      * right. exists res, o. split; [done|].
        split; [rewrite Hsplit; apply in_or_app; right; by left|].
        right. by exists info.
  - right; left. exists res. split; [done|]. unfold map_crtc_xrandr.
    by rewrite Hres, bind_lift_Some, Hscan, bind_lift_Some.
  - left. split.
    + unfold map_crtc_xrandr. by rewrite Hres, bind_lift_Some, Hscan.
    + apply scan_outputs_undefined in Hscan as (o & Hin & Ho).
      right. exists res, o. split; [done|]. split; [done|]. by left.
Qed.

(** The ways through [map_crtc_xinerama]. *)
Lemma map_crtc_xinerama_outcomes (deviceid : Z) (output_name : string) (m0 : Matrix) :
  let run := map_crtc_xinerama dpy deviceid output_name m0 in
  let screens := (XineramaQueryScreens dpy).1 in
  (run = ([], None)
   /\ (XineramaQueryScreens dpy).2 <> [] /\ head_of output_name < 0)
  \/ (exists message, run = ([Stderr message; Free NULL], Some EXIT_FAILURE))
  \/ (exists message, run = ([Stderr message; Free screens], Some EXIT_FAILURE))
  \/ exists r, resolved_rectangle dpy Xinerama output_name r
       /\ let '(x, y, w, h) := r in
          let m := rect_matrix (DisplayWidth dpy) (DisplayHeight dpy) x y w h in
          (exists message, run = ([Stderr message; Free screens], Some EXIT_FAILURE))
          \/ (property_ready dpy deviceid
              /\ run = ([matrix_write dpy deviceid m;
                         Free (data (property_reply dpy deviceid)); Free screens],
                        Some EXIT_SUCCESS)).
Proof.
  cbv zeta. unfold map_crtc_xinerama, resolved_rectangle.
  destruct (negb _); [right; left; by eexists|].
  destruct (_ || _); [right; left; by eexists|].
  change (strlen "HEAD-") with 5%nat. fold (head_of output_name).
  destruct (XineramaQueryScreens dpy) as [p l]. cbn [fst snd].
  destruct (Z.eqb_spec (Z.of_nat (length l)) 0) as [|Hn]; [right; right; left; by eexists|].
  destruct (Z.leb_spec (Z.of_nat (length l)) (head_of output_name)) as [|Hh];
    [right; right; left; by eexists|].
  rewrite matrix_set_unity_identity, bind_lift_Some.
  destruct (index l (head_of output_name)) as [s|] eqn:Hs.
  - right; right; right. exists (x_org s, y_org s, xi_width s, xi_height s).
    split; [by exists s|].
    rewrite bind_lift_Some, set_transformation_matrix_rect, bind_lift_Some.
    apply apply_matrix_release.
  - left. split; [done|]. split; [by destruct l|].
    apply index_None in Hs. lia.
Qed.

(** The dispatcher stops at its own two checks, reads past the end of
    [argv], or is the resolver it selected. *)
Lemma map_to_crtc_outcomes (argc : Z) (argv : list string) (name desc : string)
    (m0 : Matrix) :
  let run := map_to_crtc dpy argc argv name desc m0 in
  (exists message, run = ([Stderr message], Some EXIT_FAILURE))
  \/ (run = ([], None) /\ Z.of_nat (length argv) < argc)
  \/ exists arg0 crtc_name info,
       index argv 0 = Some arg0 /\ index argv 1 = Some crtc_name
       /\ xi2_find_device_info dpy arg0 = Some info
       /\ run = resolver (select_backend dpy) dpy (deviceid info) crtc_name m0.
Proof.
  cbv zeta. unfold map_to_crtc.
  destruct (Z.ltb_spec argc 2) as [|Hargc]; [left; by eexists|].
  destruct (index argv 0) as [arg0|] eqn:H0.
  2:{ right; left. split; [done|]. apply index_None in H0. lia. }
  rewrite bind_lift_Some.
  destruct (xi2_find_device_info dpy arg0) as [info|] eqn:Hinfo; [|left; by eexists].
  destruct (index argv 1) as [crtc_name|] eqn:H1.
  2:{ right; left. split; [done|]. apply index_None in H1. lia. }
  rewrite bind_lift_Some. right; right. by exists arg0, crtc_name, info.
Qed.

End Outcomes.

(** The ways through either resolver: undefined behaviour before any
    event, one line on standard error and a release, the line on
    standard output of the RandR resolver, or the write of the matrix of
    the resolved rectangle and the two releases. *)
Lemma resolver_outcomes (dpy : Display) (b : backend) (deviceid : Z)
    (output_name : string) (m0 : Matrix) :
  let run := resolver b dpy deviceid output_name m0 in
  (run = ([], None)
   /\ ((b = Xinerama
        /\ (XineramaQueryScreens dpy).2 <> [] /\ head_of output_name < 0)
       \/ (b = RandR /\ randr_null dpy output_name)))
  \/ (exists message last,
        run = ([Stderr message; last], Some EXIT_FAILURE)
        /\ is_write last = false /\ is_output last = false)
  \/ (b = RandR
      /\ exists res,
           run = ([Stdout (msg_no_output output_name); FreeScreenResources (handle res)],
                  Some EXIT_FAILURE))
  \/ (exists r last,
        resolved_rectangle dpy b output_name r
        /\ property_ready dpy deviceid
        /\ is_write last = false /\ is_output last = false
        /\ let '(x, y, w, h) := r in
           run = ([matrix_write dpy deviceid
                     (rect_matrix (DisplayWidth dpy) (DisplayHeight dpy) x y w h);
                   Free (data (property_reply dpy deviceid)); last],
                  Some EXIT_SUCCESS)).
Proof.
  cbv zeta. destruct b; cbn [resolver].
  - destruct (map_crtc_xinerama_outcomes dpy deviceid output_name m0)
      as [(-> & Hl & Hh)|[[msg ->]|[[msg ->]|([[[x y] w] h] & Hr & [[msg ->]|[Hwf ->]])]]].
    + left. split; [done|]. by left.
    + right; left. eexists _, _; (split; [reflexivity|by split]).
    + right; left. eexists _, _; (split; [reflexivity|by split]).
    + right; left. eexists _, _; (split; [reflexivity|by split]).
    + right; right; right. eexists (_, _, _, _), _; (split; [done|split; [done|split; [|split]]]); [| |reflexivity]; done.
  - destruct (map_crtc_xrandr_outcomes dpy deviceid output_name m0)
      as [(-> & Hnull)|[(res & _ & ->)
          |([[[x y] w] h] & res & _ & Hr & [[msg ->]|[Hwf ->]])]].
    + left. split; [done|]. by right.
    + right; right; left. split; [done|]. by exists res.
    + right; left. eexists _, _; (split; [reflexivity|by split]).
    + right; right; right. eexists (_, _, _, _), _; (split; [done|split; [done|split; [|split]]]); [| |reflexivity]; done.
Qed.

(** X1.  When the server returns the screen resources, describes
    every output of the list and returns the geometry of the CRTC of
    every connected output that has one (no null pointer where the
    resolver dereferences without a test), the RandR resolver returns
    [EXIT_SUCCESS] or [EXIT_FAILURE] for every requested name, and its
    last action is the one release of the screen resources.  In
    particular [crtc_info] is never read before the loop has stored
    into it: [found] is only set in an iteration that stored the CRTC
    of the output at hand. *)
Theorem randr_returns_and_releases (dpy : Display) (deviceid : Z) (output_name : string)
    (m0 : Matrix) (res : XRRScreenResources) :
  XRRGetScreenResources dpy = Some res ->
  (forall o, In o (outputs res) ->
     exists info, XRRGetOutputInfo dpy o = Some info
       /\ (candidate info -> exists c, XRRGetCrtcInfo dpy (crtc info) = Some c)) ->
  exists t rc,
    map_crtc_xrandr dpy deviceid output_name m0
    = (t ++ [FreeScreenResources (handle res)], Some rc)
    /\ (rc = EXIT_SUCCESS \/ rc = EXIT_FAILURE)
    /\ forall p, ~ In (FreeScreenResources p) t.
Proof.
  intros Hres Hall.
  destruct (map_crtc_xrandr_outcomes dpy deviceid output_name m0)
    as [(_ & Hnull)|[(res' & Hres' & ->)
        |([[[x y] w] h] & res' & Hres' & _ & [[msg ->]|[_ ->]])]].
  - exfalso. destruct Hnull as [Hnone|(res' & o & Hres' & Hin & Ho)]; [congruence|].
    assert (res' = res) as -> by congruence.
    destruct (Hall o Hin) as (info & Hinfo & Hcrtc).
    destruct Ho as [Ho|(info' & Hinfo' & [Hcand _] & Hc)]; [congruence|].
    assert (info' = info) as -> by congruence.
    destruct (Hcrtc Hcand) as [c Hc']. congruence.
  - assert (res' = res) as -> by congruence.
    exists [Stdout (msg_no_output output_name)], EXIT_FAILURE.
    split; [done|]. split; [by right|]. by intros p [H|[]].
  - assert (res' = res) as -> by congruence.
    exists [Stderr msg], EXIT_FAILURE.
    split; [done|]. split; [by right|]. by intros p [H|[]].
  - assert (res' = res) as -> by congruence.
    eexists [_; _], EXIT_SUCCESS.
    split; [done|]. split; [by left|]. by intros p [H|[H|[]]].
Qed.

Lemma randr_returns_and_releases_witness :
  exists t rc,
    map_crtc_xrandr randr_display 5 "DVI-1" []
    = (t ++ [FreeScreenResources 8192], Some rc)
    /\ (rc = EXIT_SUCCESS \/ rc = EXIT_FAILURE)
    /\ forall p, ~ In (FreeScreenResources p) t.
Proof.
  apply (randr_returns_and_releases randr_display 5 "DVI-1" []
           {| handle := 8192; outputs := [61; 62; 63] |}); [reflexivity|].
  intros o [<-|[<-|[<-|[]]]]; eexists; (split; [reflexivity|]); intros _; by eexists.
Defined.

(** X2.  A run of the Xinerama resolver either goes into undefined
    behaviour before it has done anything, or returns [EXIT_SUCCESS]
    or [EXIT_FAILURE] with [XFree] of the variable [screens] as its
    last action: the null pointer it starts as, or the list the server
    returned.  The only other release of the run is that of the
    buffer of the property read. *)
Theorem xinerama_releases_screens (dpy : Display) (deviceid : Z) (output_name : string)
    (m0 : Matrix) :
  let run := map_crtc_xinerama dpy deviceid output_name m0 in
  run = ([], None)
  \/ exists t rc p,
       run = (t ++ [Free p], Some rc)
       /\ (rc = EXIT_SUCCESS \/ rc = EXIT_FAILURE)
       /\ (p = NULL \/ p = (XineramaQueryScreens dpy).1)
       /\ forall q, In (Free q) t -> q = data (property_reply dpy deviceid).
Proof.
  cbv zeta.
  destruct (map_crtc_xinerama_outcomes dpy deviceid output_name m0)
    as [(-> & _)|[[msg ->]|[[msg ->]|([[[x y] w] h] & _ & [[msg ->]|[_ ->]])]]];
    [by left|right..].
  - exists [Stderr msg], EXIT_FAILURE, NULL.
    split; [done|]. split; [by right|]. split; [by left|]. by intros q [H|[]].
  - exists [Stderr msg], EXIT_FAILURE, (XineramaQueryScreens dpy).1.
    split; [done|]. split; [by right|]. split; [by right|]. by intros q [H|[]].
  - exists [Stderr msg], EXIT_FAILURE, (XineramaQueryScreens dpy).1.
    split; [done|]. split; [by right|]. split; [by right|]. by intros q [H|[]].
  - eexists [_; _], EXIT_SUCCESS, (XineramaQueryScreens dpy).1.
    split; [done|]. split; [by left|]. split; [by right|].
    intros q [H|[[= <-]|[]]]; done.
Qed.

Lemma printed_last (e last : event) :
  is_output last = false -> printed [e; last] = printed [e].
Proof. intros H. unfold printed. simpl. by rewrite H. Qed.

Lemma writes_last (e last : event) :
  is_write last = false -> writes [e; last] = writes [e].
Proof. intros H. unfold writes. simpl. by rewrite H. Qed.

(** X3.  The dispatcher returns [EXIT_SUCCESS] exactly when it has
    sent one property write: a run that returns success sent exactly
    one, and a run that returns failure or goes into undefined
    behaviour sent none. *)
Theorem one_write_iff_success (dpy : Display) (argc : Z) (argv : list string)
    (name desc : string) (m0 : Matrix) :
  let run := map_to_crtc dpy argc argv name desc m0 in
  (run.2 = Some EXIT_SUCCESS /\ exists w, writes run.1 = [w])
  \/ (run.2 <> Some EXIT_SUCCESS /\ writes run.1 = []).
Proof.
  cbv zeta.
  destruct (map_to_crtc_outcomes dpy argc argv name desc m0)
    as [[msg ->]|[[-> _]|(arg0 & crtc_name & info & _ & _ & _ & ->)]];
    [by right|by right|].
  destruct (resolver_outcomes dpy (select_backend dpy) (deviceid info) crtc_name m0)
    as [(-> & _)|[(msg & last & -> & Hw & _)|[(_ & res & ->)
        |([[[x y] w] h] & last & _ & _ & Hw & _ & ->)]]].
  - by right.
  - right. split; [done|]. cbn [fst]. by rewrite writes_last.
  - by right.
  - left. split; [done|]. eexists. unfold writes, matrix_write. simpl.
    by rewrite Hw.
Qed.

(** X4.  No failure is silent and no success is noisy: a run of the
    dispatcher that returns [EXIT_SUCCESS] printed nothing, a run that
    returns [EXIT_FAILURE] printed exactly one line (on standard
    error, or on standard output, which only happens under the RandR
    resolver), and a run that goes into undefined behaviour does so
    before any event.  There is no other outcome. *)
Theorem one_line_iff_failure (dpy : Display) (argc : Z) (argv : list string)
    (name desc : string) (m0 : Matrix) :
  let run := map_to_crtc dpy argc argv name desc m0 in
  (run.2 = Some EXIT_SUCCESS /\ printed run.1 = [])
  \/ (run.2 = Some EXIT_FAILURE
      /\ exists line, printed run.1 = [Stderr line]
                      \/ (select_backend dpy = RandR /\ printed run.1 = [Stdout line]))
  \/ run = ([], None).
Proof.
  cbv zeta.
  destruct (map_to_crtc_outcomes dpy argc argv name desc m0)
    as [[msg ->]|[[-> _]|(arg0 & crtc_name & info & _ & _ & _ & ->)]].
  - right; left. split; [done|]. exists msg. by left.
  - by right; right.
  - destruct (resolver_outcomes dpy (select_backend dpy) (deviceid info) crtc_name m0)
      as [(-> & _)|[(msg & last & -> & _ & Ho)|[(Hb & res & ->)
          |([[[x y] w] h] & last & _ & _ & _ & Ho & ->)]]].
    + by right; right.
    + right; left. split; [done|]. exists msg. left. cbn [fst]. by rewrite printed_last.
    + right; left. split; [done|]. eexists. right. by split.
    + left. split; [done|]. unfold printed, matrix_write. simpl. by rewrite Ho.
Qed.

Lemma index_In {A : Type} (l : list A) (i : Z) (a : A) : index l i = Some a -> In a l.
Proof.
  unfold index. destruct (i <? 0); [done|].
  intros H%list_elem_of_lookup_2. by apply list_elem_of_In.
Qed.

(** The four numbers of a resolved rectangle are [int]s. *)
Lemma resolved_rectangle_int (dpy : Display) (b : backend) (output_name : string)
    (x y w h : Z) :
  int_geometry dpy -> resolved_rectangle dpy b output_name (x, y, w, h) ->
  int_range x /\ int_range y /\ int_range w /\ int_range h.
Proof.
  intros [Hcrtc Hscreen]. destruct b; simpl.
  - intros (s & Hs%index_In & [= -> -> -> ->]). by apply Hscreen.
  - intros (res & skipped & o & rest & info & c & _ & _ & _ & _ & _ & Hc & [= -> -> -> ->]).
    destruct (Hcrtc _ _ Hc) as [Hx Hy].
    split; [done|]. split; [done|]. split; apply int_of_uint_range.
Qed.

(** X5.  What a successful run of the dispatcher wrote, on a display
    of positive width [W] and height [H] and a server whose positions
    are [int]s: the one request goes to the device looked up from the
    first argument, sets the "Coordinate Transformation Matrix"
    property with type FLOAT, format 32, mode replace and nine values,
    and the values are the matrix of the rectangle (x, y, w, h) the
    selected resolver read off the server for the second argument (for
    RandR the geometry of the CRTC of the first connected output whose
    name compares equal, its unsigned width and height converted to
    [int] as the call converts them; for Xinerama the screen at the
    index of the name): w / W and h / H in (0,0) and (1,1), x / W and
    y / H in (0,2) and (1,2), each a number within one part in [2^21]
    of the rational quotient, zeros in the other entries of the upper
    rows and [0 0 1] below.  Both atoms exist and the property read
    was well formed. *)
Theorem written_matrix (dpy : Display) (argc : Z) (argv : list string)
    (name desc : string) (m0 : Matrix) :
  let run := map_to_crtc dpy argc argv name desc m0 in
  let W := DisplayWidth dpy in
  let H := DisplayHeight dpy in
  0 < W <= INT_MAX -> 0 < H <= INT_MAX -> int_geometry dpy ->
  run.2 = Some EXIT_SUCCESS ->
  exists arg0 crtc_name info x y w h,
    index argv 0 = Some arg0 /\ index argv 1 = Some crtc_name
    /\ xi2_find_device_info dpy arg0 = Some info
    /\ resolved_rectangle dpy (select_backend dpy) crtc_name (x, y, w, h)
    /\ property_ready dpy (deviceid info)
    /\ writes run.1
       = [ChangeProperty (deviceid info) (XInternAtom dpy MATRIX false)
            (XInternAtom dpy FLOAT false) 32 PropModeReplace
            [ FP.quotient w W; FP.float_zero; FP.quotient x W;
              FP.float_zero; FP.quotient h H; FP.quotient y H;
              FP.float_zero; FP.float_zero; FP.float_one ] 9]
    /\ Forall (fun f => FP.finite f = true)
         [FP.quotient w W; FP.quotient x W; FP.quotient h H; FP.quotient y H]
    /\ FP.close_to (FP.quotient w W) w W /\ FP.close_to (FP.quotient h H) h H
    /\ FP.close_to (FP.quotient x W) x W /\ FP.close_to (FP.quotient y H) y H.
Proof.
  intros run W H HW HH Hgeo. subst run.
  destruct (map_to_crtc_outcomes dpy argc argv name desc m0)
    as [[msg ->]|[[-> _]|(arg0 & crtc_name & info & H0 & H1 & Hinfo & ->)]];
    [done|done|].
  destruct (resolver_outcomes dpy (select_backend dpy) (deviceid info) crtc_name m0)
    as [(-> & _)|[(msg & last & -> & _)|[(_ & res & ->)
        |([[[x y] w] h] & last & Hr & Hready & Hw & _ & ->)]]]; try done.
  intros _. exists arg0, crtc_name, info, x, y, w, h.
  destruct (resolved_rectangle_int dpy _ _ x y w h Hgeo Hr) as (Hx & Hy & Hw' & Hh').
  repeat (split; [done|]).
  split.
  { unfold writes, matrix_write, rect_matrix. fold W H. simpl.
    by rewrite Hw, !ratio_quotient. }
  split; [by repeat constructor; apply quotient_finite|].
  by repeat split; apply quotient_close.
Qed.

Lemma written_matrix_witness :
  exists x y w h,
    resolved_rectangle randr_display RandR "HDMI-1" (x, y, w, h)
    /\ writes (map_to_crtc randr_display 2 ["tablet"; "HDMI-1"]%string
                 "map-to-output" "<device> <output name>" []).1
       = [ChangeProperty 5 matrix_atom float_atom 32 PropModeReplace
            [ FP.quotient w 1920; FP.float_zero; FP.quotient x 1920;
              FP.float_zero; FP.quotient h 1080; FP.quotient y 1080;
              FP.float_zero; FP.float_zero; FP.float_one ] 9]
    /\ FP.close_to (FP.quotient w 1920) w 1920.
Proof.
  assert (int_geometry randr_display) as Hgeo.
  { split.
    - intros id c. simpl. destruct (id =? 72); intros [= <-];
        unfold int_range, INT_MIN, INT_MAX; simpl; lia.
    - intros s [<-|[<-|[]]]; unfold int_range, INT_MIN, INT_MAX; simpl; lia. }
  destruct (written_matrix randr_display 2 ["tablet"; "HDMI-1"]%string
              "map-to-output" "<device> <output name>" []
              ltac:(unfold INT_MAX; simpl; lia) ltac:(unfold INT_MAX; simpl; lia)
              Hgeo eq_refl)
    as (arg0 & crtc_name & info & x & y & w & h & [= <-] & [= <-] & [= <-] & Hr & _
        & Hw & _ & Hclose & _).
  by exists x, y, w, h.
Defined.

(** X6.  Where the dispatcher can go wrong.  With at least as many
    arguments as [argc] says and a reported version whose encoding
    [maj * 1000 + min] does not overflow an [int], a run is undefined
    only in two ways, and both before anything was printed, written or
    released: the Xinerama resolver was selected, the server reported
    at least one screen and the character after "HEAD-" in the second
    argument is below ['0'] (a read before the start of the screen
    list); or the RandR resolver was selected and one of the RandR
    calls whose result it dereferences without a test returned a null
    pointer (the resources, the description of an output, or the
    geometry of the CRTC of the output looked for). *)
Theorem undefined_behaviour_sources (dpy : Display) (argc : Z) (argv : list string)
    (name desc : string) (m0 : Matrix) :
  let run := map_to_crtc dpy argc argv name desc m0 in
  argc <= Z.of_nat (length argv) ->
  version_fits dpy ->
  run.2 = None ->
  run.1 = []
  /\ exists crtc_name,
       index argv 1 = Some crtc_name
       /\ ((select_backend dpy = Xinerama
            /\ (XineramaQueryScreens dpy).2 <> [] /\ head_of crtc_name < 0)
           \/ (select_backend dpy = RandR /\ randr_null dpy crtc_name)).
Proof.
  cbv zeta. intros Hargc _.
  destruct (map_to_crtc_outcomes dpy argc argv name desc m0)
    as [[msg ->]|[[-> ?]|(arg0 & crtc_name & info & _ & H1 & _ & ->)]]; [done|lia|].
  destruct (resolver_outcomes dpy (select_backend dpy) (deviceid info) crtc_name m0)
    as [(-> & Hcause)|[(msg & last & -> & _)|[(_ & res & ->)
        |([[[x y] w] h] & last & _ & _ & _ & _ & ->)]]]; try done.
  intros _. split; [done|]. by exists crtc_name.
Qed.

Lemma undefined_behaviour_sources_witness :
  let dpy := sample_display [] None (reply_of 9) [left_screen] in
  (map_to_crtc dpy 2 ["tablet"; "HEAD-/"]%string
     "map-to-output" "<device> <output name>" []).1 = []
  /\ exists crtc_name,
       index ["tablet"; "HEAD-/"]%string 1 = Some crtc_name
       /\ ((select_backend dpy = Xinerama
            /\ (XineramaQueryScreens dpy).2 <> [] /\ head_of crtc_name < 0)
           \/ (select_backend dpy = RandR /\ randr_null dpy crtc_name)).
Proof.
  intros dpy.
  apply (undefined_behaviour_sources dpy 2 ["tablet"; "HEAD-/"]%string
           "map-to-output" "<device> <output name>" []);
    [simpl; lia|by intros maj min|reflexivity].
Defined.

(** * Digits after the prefix *)

Section DigitNames.

Variable c : ascii.
Variable rest : string.

Hypothesis digit : is_digit c.
Hypothesis tail : nul_free rest = true.

Local Abbreviation head_name := ("HEAD-" ++ String c rest)%string.

Lemma digit_not_NUL : Ascii.eqb c NUL = false.
Proof.
  apply Ascii.eqb_neq. intros ->. unfold is_digit in digit. change (uchar NUL) with 0 in digit. lia.
Qed.

Lemma digit_name_nul_free : nul_free head_name = true.
Proof. simpl. by rewrite digit_not_NUL, tail. Qed.

Lemma digit_name_prefix : String.prefix "HEAD-" head_name = true.
Proof. reflexivity. Qed.

Lemma digit_name_length : (6 <= String.length head_name)%nat.
Proof. simpl. lia. Qed.

Lemma digit_head : head_of head_name = uchar c - 48.
Proof.
  unfold head_of, char_at. simpl String.get. unfold char_to_int.
  unfold is_digit in digit. destruct (Z.ltb_spec (uchar c) 128); [|lia].
  reflexivity.
Qed.

End DigitNames.

(** X7.  With the Xinerama extension present, a name made of "HEAD-",
    a digit and any further characters has the value of the digit as
    its screen index, the run always returns (no read outside the
    screen list), and the characters after the digit are ignored: the
    result and the property write are those of the name cut after the
    digit, so "HEAD-10" addresses screen 1. *)
Theorem xinerama_first_digit (dpy : Display) (deviceid : Z) (c : ascii) (rest : string)
    (m0 : Matrix) :
  XineramaQueryExtension dpy = true -> is_digit c -> nul_free rest = true ->
  let name := ("HEAD-" ++ String c rest)%string in
  let run := map_crtc_xinerama dpy deviceid name m0 in
  let short := map_crtc_xinerama dpy deviceid ("HEAD-" ++ String c "") m0 in
  head_of name = uchar c - 48
  /\ (exists rc, run.2 = Some rc)
  /\ run.2 = short.2
  /\ writes run.1 = writes short.1.
Proof.
  intros Hext Hd Hrest. cbv zeta.
  pose proof (digit_head c rest Hd) as Hh.
  pose proof (digit_head c "" Hd) as Hh'.
  split; [done|].
  rewrite (accepted_name dpy deviceid _ m0 Hext (digit_name_nul_free c rest Hd Hrest)
             (digit_name_prefix c rest) (digit_name_length c rest)).
  rewrite (accepted_name dpy deviceid _ m0 Hext (digit_name_nul_free c "" Hd eq_refl)
             (digit_name_prefix c "") (digit_name_length c "")).
  rewrite Hh, Hh'.
  destruct (Z.eqb_spec (Z.of_nat (length (XineramaQueryScreens dpy).2)) 0) as [|Hn];
    [by eauto|].
  destruct (Z.leb_spec (Z.of_nat (length (XineramaQueryScreens dpy).2)) (uchar c - 48))
    as [|Hlt]; [by eauto|].
  destruct (index_in_range (XineramaQueryScreens dpy).2 (uchar c - 48)) as [s ->].
  { unfold is_digit in Hd. lia. }
  rewrite bind_lift_Some. split; [|done].
  destruct (apply_matrix_release dpy deviceid
              (rect_matrix (DisplayWidth dpy) (DisplayHeight dpy)
                 (x_org s) (y_org s) (xi_width s) (xi_height s))
              (Free (XineramaQueryScreens dpy).1)) as [[msg H]|[_ H]];
    unfold out; rewrite H; by eauto.
Qed.

Lemma xinerama_first_digit_witness :
  let run := map_crtc_xinerama randr_display 5 "HEAD-10" [] in
  let short := map_crtc_xinerama randr_display 5 "HEAD-1" [] in
  head_of "HEAD-10" = 1
  /\ (exists rc, run.2 = Some rc)
  /\ run.2 = short.2
  /\ writes run.1 = writes short.1.
Proof.
  apply (xinerama_first_digit randr_display 5 "1" "0" []); [reflexivity| |reflexivity].
  unfold is_digit. change (uchar "1") with 49. lia.
Defined.

(** * Quotients of a part by the whole *)

Section UnitInterval.

(** The two roundings of a quotient below one, on scaled integers:
    [ma = a * 2^ka] and [mb = b * 2^kb] are the mantissas of the two
    operands, [md] that of the double quotient and [mf] that of the
    float. *)
Lemma below_one_scaled (a b ma mb md mf ka kb N N' : Z) :
  0 < a < b -> b < 2 ^ 31 -> 0 <= ka -> 0 <= kb ->
  ma = a * 2 ^ ka -> mb = b * 2 ^ kb -> 2 ^ 52 <= ma -> mb < 2 ^ 53 ->
  0 <= N <= 2 -> 29 <= N' <= 30 ->
  mb * ((md - 1) * 2 ^ N) <= ma * 2 ^ 53 ->
  (mf - 1) * 2 ^ N' <= md ->
  0 <= ka - kb + 53 - N - N' /\ mf <= 2 ^ (ka - kb + 53 - N - N').
Proof.
  intros Hab Hb Hka Hkb -> -> Hma Hmb HN HN' Hlo Hflo.
  assert (0 < 2 ^ ka) as HA by (apply Z.pow_pos_nonneg; lia).
  assert (0 < 2 ^ kb) as HB by (apply Z.pow_pos_nonneg; lia).
  assert (kb <= ka) as Hk.
  { destruct (Z.le_gt_cases kb ka) as [|Hgt]; [done|exfalso].
    assert (2 ^ (ka + 1) <= 2 ^ kb) as Hp by (apply Z.pow_le_mono_r; lia).
    rewrite Z.pow_add_r in Hp by lia. change (2 ^ 1) with 2 in Hp.
    assert (b * (2 ^ ka * 2) <= b * 2 ^ kb) by (apply Z.mul_le_mono_nonneg_l; lia).
    assert ((a + 1) * 2 ^ ka <= b * 2 ^ ka) by (apply Z.mul_le_mono_nonneg_r; lia).
    lia. }
  set (G := ka - kb + 53 - N).
  assert (2 ^ ka * 2 ^ 53 = 2 ^ kb * 2 ^ N * 2 ^ G) as Hpow.
  { rewrite <- !Z.pow_add_r by lia. f_equal. lia. }
  assert (0 < 2 ^ N) as HpN by (apply Z.pow_pos_nonneg; lia).
  assert (2 ^ 51 <= 2 ^ G) as HG by (apply Z.pow_le_mono_r; lia).
  assert (b * (md - 1) <= a * 2 ^ G) as Hlo'.
  { apply (Z.mul_le_mono_pos_l _ _ (2 ^ kb * 2 ^ N)); [lia|].
    replace (2 ^ kb * 2 ^ N * (a * 2 ^ G)) with (a * 2 ^ ka * 2 ^ 53)
      by (rewrite <- Z.mul_assoc, Hpow; ring).
    rewrite <- Hlo. apply Z.eq_le_incl. ring. }
  assert (md < 2 ^ G) as Hmd.
  { destruct (Z.lt_ge_cases md (2 ^ G)) as [|Hge]; [done|exfalso].
    assert (b * (2 ^ G - 1) <= b * (md - 1)) by (apply Z.mul_le_mono_nonneg_l; lia).
    assert (a * 2 ^ G <= (b - 1) * 2 ^ G) by (apply Z.mul_le_mono_nonneg_r; lia).
    change (2 ^ 51) with 2251799813685248 in HG.
    change (2 ^ 31) with 2147483648 in Hb. lia. }
  split; [lia|].
  replace (ka - kb + 53 - N - N') with (G - N') by lia.
  assert (2 ^ G = 2 ^ (G - N') * 2 ^ N') as HGN.
  { rewrite <- Z.pow_add_r by lia. f_equal. lia. }
  assert (0 < 2 ^ N') as HpN' by (apply Z.pow_pos_nonneg; lia).
  assert (mf - 1 < 2 ^ (G - N')); [|lia].
  apply (Z.mul_lt_mono_pos_r (2 ^ N')); [done|]. rewrite <- HGN. lia.
Qed.

(** The quotient of a positive [int] by a larger one is a float
    [mf * 2^ef] with [mf <= 2^(-ef)]: at most one. *)
Lemma quotient_below_one (a b : Z) :
  0 < a < b -> b <= INT_MAX ->
  exists mf ef, FP.quotient a b = S754_finite false mf ef
                /\ ef <= 0 /\ Z.pos mf <= 2 ^ (- ef).
Proof.
  intros Hab Hb. unfold FP.quotient.
  assert (- 2 ^ 53 < a < 2 ^ 53) as Ha'
    by (apply int_range_2_53; unfold int_range, INT_MIN, INT_MAX in *; lia).
  assert (- 2 ^ 53 < b < 2 ^ 53) as Hb'
    by (apply int_range_2_53; unfold int_range, INT_MIN, INT_MAX in *; lia).
  destruct (double_of_int_nonzero b ltac:(lia) Hb') as (mb & eb & -> & Hnb & Heb & Hvb).
  destruct (double_of_int_nonzero a ltac:(lia) Ha') as (ma & ea & -> & Hna & Hea & Hva).
  destruct (double_div_close (a <? 0) (b <? 0) ma mb ea eb Hna Hnb ltac:(lia))
    as (md & ed & -> & Hd & HN & Hlo & _).
  destruct (float_of_double_close (xorb (a <? 0) (b <? 0)) md ed Hd ltac:(lia))
    as (mf & ef & -> & HN' & Hflo & _).
  replace (a <? 0) with false by (symmetry; apply Z.ltb_ge; lia).
  replace (b <? 0) with false by (symmetry; apply Z.ltb_ge; lia).
  exists mf, ef. split; [done|].
  rewrite Z.abs_eq in Hva, Hvb by lia.
  destruct (below_one_scaled a b (Z.pos ma) (Z.pos mb) (Z.pos md) (Z.pos mf)
              (- ea) (- eb) (ed - (ea - eb - 53)) (ef - ed)) as [Hexp Hmf];
    try done; try lia.
  - unfold INT_MAX in Hb. change (2 ^ 31) with 2147483648. lia.
  - destruct Hna as [Hda _]. apply normal_mantissa in Hda. lia.
  - destruct Hnb as [Hdb _]. apply normal_mantissa in Hdb. lia.
  - split; [lia|].
    replace (- ef) with (- ea - - eb + 53 - (ed - (ea - eb - 53)) - (ef - ed)) by lia.
    done.
Qed.

Lemma unit_interval_scaled (m : positive) (e : Z) :
  e <= 0 -> Z.pos m <= 2 ^ (- e) -> unit_interval (S754_finite false m e).
Proof.
  intros He Hm. unfold unit_interval, FP.value.
  rewrite (Qpower2_frac e (- e)) by lia.
  replace (e + - e) with 0 by lia. change (2 ^ 0) with 1.
  assert (0 < 2 ^ (- e)) as HT by (apply Z.pow_pos_nonneg; lia).
  revert Hm HT. generalize (2 ^ (- e)). intros T Hm HT.
  destruct T as [|t|t]; [lia| |lia].
  unfold Qle, Qmult, Qdiv, Qinv, inject_Z. simpl. lia.
Qed.

Lemma unit_interval_zero : unit_interval FP.float_zero.
Proof. unfold unit_interval, Qle. simpl. lia. Qed.

Lemma unit_interval_one : unit_interval FP.float_one.
Proof. unfold unit_interval, Qle. simpl. lia. Qed.

(** A part over the whole is between 0 and 1, after both roundings. *)
Lemma ratio_unit_interval (a b : Z) :
  0 <= a <= b -> 0 < b <= INT_MAX -> unit_interval (FP.ratio a b).
Proof.
  intros Ha Hb.
  destruct (Z.eq_dec a 0) as [->|Hne].
  { rewrite ratio_zero by done. apply unit_interval_zero. }
  destruct (Z.eq_dec a b) as [->|Hlt].
  { rewrite ratio_self by done. apply unit_interval_one. }
  rewrite ratio_quotient by (unfold int_range, INT_MIN, INT_MAX in *; lia).
  destruct (quotient_below_one a b) as (mf & ef & -> & He & Hm); [lia|lia|].
  by apply unit_interval_scaled.
Qed.

End UnitInterval.

(** X8.  On a display whose width and height are positive [int]s,
    for every rectangle that lies inside the display (offsets and
    extents not negative, offset plus extent within the display) all
    nine entries of the matrix the builder returns are numbers
    (neither an infinity nor NaN) between 0 and 1, after the rounding
    to double and to float. *)
Theorem contained_rectangle_unit_interval (dpy : Display) (m : Matrix)
    (offset_x offset_y rect_w rect_h : Z) :
  let W := DisplayWidth dpy in
  let H := DisplayHeight dpy in
  0 < W <= INT_MAX -> 0 < H <= INT_MAX ->
  0 <= offset_x -> 0 <= rect_w -> offset_x + rect_w <= W ->
  0 <= offset_y -> 0 <= rect_h -> offset_y + rect_h <= H ->
  exists m' : Matrix,
    set_transformation_matrix dpy m offset_x offset_y rect_w rect_h = Some m'
    /\ Forall unit_interval m'.
Proof.
  intros W H HW HH Hx Hw Hxw Hy Hh Hyh.
  eexists. split; [apply set_transformation_matrix_rect|].
  unfold rect_matrix. fold W H.
  repeat constructor;
    try apply unit_interval_zero; try apply unit_interval_one;
    apply ratio_unit_interval; lia.
Qed.

Lemma contained_rectangle_unit_interval_witness :
  exists m' : Matrix,
    set_transformation_matrix randr_display [] 640 360 1279 719 = Some m'
    /\ Forall unit_interval m'.
Proof.
  apply (contained_rectangle_unit_interval randr_display [] 640 360 1279 719);
    unfold INT_MAX; simpl; lia.
Defined.

(** * Stores into the matrix and its initial contents *)

(** X9.  A store into a nine-entry matrix at a row and a column
    between 0 and 2 succeeds, keeps nine entries, is read back at
    that row and column, and leaves the other eight entries as they
    were. *)
Theorem matrix_set_entry (m : Matrix) (row col : Z) (val : spec_float) :
  length m = 9%nat -> 0 <= row <= 2 -> 0 <= col <= 2 ->
  exists m' : Matrix,
    matrix_set m row col val = Some m'
    /\ length m' = 9%nat
    /\ entry m' (Z.to_nat row) (Z.to_nat col) = Some val
    /\ forall r c, (r < 3)%nat -> (c < 3)%nat ->
         (r, c) <> (Z.to_nat row, Z.to_nat col) -> entry m' r c = entry m r c.
Proof.
  intros Hlen Hrow Hcol. unfold matrix_set, entry.
  destruct (Z.leb_spec 0 (row * 3 + col)); [|lia].
  destruct (Z.ltb_spec (row * 3 + col) 9); [|lia].
  eexists. split; [reflexivity|].
  replace (Z.to_nat (row * 3 + col)) with (Z.to_nat row * 3 + Z.to_nat col)%nat by lia.
  unfold Matrix in *. split; [by rewrite length_insert|]. split.
  - apply list_lookup_insert_eq. lia.
  - intros r c Hr Hc Hne. apply list_lookup_insert_ne.
    intros Heq. apply Hne. f_equal; lia.
Qed.

Lemma matrix_set_entry_witness :
  exists m' : Matrix,
    matrix_set identity_matrix 0 2 FP.float_half = Some m'
    /\ length m' = 9%nat
    /\ entry m' 0 2 = Some FP.float_half
    /\ forall r c, (r < 3)%nat -> (c < 3)%nat ->
         (r, c) <> (0%nat, 2%nat) -> entry m' r c = entry identity_matrix r c.
Proof.
  apply (matrix_set_entry identity_matrix 0 2 FP.float_half); [reflexivity|lia|lia].
Defined.

(** X10.  The contents of the automatic variable [Matrix m] before
    its first write never reach the outside: two runs of the
    dispatcher that differ only in those contents return the same
    status after the same events. *)
Theorem initial_matrix_never_read (dpy : Display) (argc : Z) (argv : list string)
    (name desc : string) (m0 m0' : Matrix) :
  map_to_crtc dpy argc argv name desc m0 = map_to_crtc dpy argc argv name desc m0'.
Proof.
  unfold map_to_crtc.
  destruct (argc <? 2); [done|].
  destruct (index argv 0) as [arg0|]; [|done]. rewrite !bind_lift_Some.
  destruct (xi2_find_device_info dpy arg0) as [info|]; [|done].
  destruct (index argv 1) as [crtc_name|]; [|done]. rewrite !bind_lift_Some.
  destruct (select_backend dpy); cbn [resolver].
  - unfold map_crtc_xinerama. by rewrite !matrix_set_unity_identity.
  - unfold map_crtc_xrandr. by rewrite !matrix_set_unity_identity.
Qed.

(** * When the mapping succeeds *)

Section Success.

Variable dpy : Display.




End Success.

